(** * Counterfactual example generation and patching utilities

    A shallow embedding of the prompt editors and sampler/aligner functions of
    [src/data/data_utils.py] and of the numeric utilities of
    [src/analysis_utils.py].

    Python values are modelled as follows: [str] is [string], a list is a
    [list], an index is a [Z] where the code may use a negative one and a
    [nat] where it comes from [range] or [enumerate]; raising is the left
    injection of [result]; the process-global generator of the [random] module
    is threaded explicitly through the [Rand] monad. *)

From Stdlib Require Import List String Ascii Bool Arith ZArith Lia.
From Stdlib Require Import Permutation Sorted.
From Stdlib Require Import Floats.SpecFloat.
Import ListNotations.

Local Open Scope string_scope.
Local Open Scope list_scope.

(** ** Exceptions and the error monad *)

Inductive pyerr : Type :=
| AssertionError
| IndexError
| ValueError (msg : string)
| NameError (name : string)
| TypeError
| RuntimeError
| NonTermination.

Definition result (A : Type) : Type := (pyerr + A)%type.

Definition ok {A} (a : A) : result A := inr a.
Definition raise {A} (e : pyerr) : result A := inl e.

Definition rbind {A B} (m : result A) (k : A -> result B) : result B :=
  match m with
  | inl e => inl e
  | inr a => k a
  end.

Notation "'let*' x ':=' m 'in' k" := (rbind m (fun x => k))
  (at level 10, x pattern, m at level 100, k at level 200).

(** The body of a [for] statement run over the values of its iterable, with
    the loop-carried variables in [s]. *)
Fixpoint for_each {A S} (body : A -> S -> result S) (xs : list A) (s : S)
  : result S :=
  match xs with
  | [] => ok s
  | x :: xs' => let* s' := body x s in for_each body xs' s'
  end.

(** ** Python sequences *)

(** [l[i]], with Python's negative indices and [IndexError]. *)
Definition getitem {A} (l : list A) (i : Z) : result A :=
  let n := Z.of_nat (List.length l) in
  let j := if (i <? 0)%Z then (i + n)%Z else i in
  if ((j <? 0) || (n <=? j))%Z then raise IndexError
  else match nth_error l (Z.to_nat j) with
       | Some x => ok x
       | None => raise IndexError
       end.

(** [l[i]] for an index that is a natural number. *)
Definition getnat {A} (l : list A) (i : nat) : result A :=
  match nth_error l i with
  | Some x => ok x
  | None => raise IndexError
  end.

(** [range(start, stop, step)] for a positive [step]. *)
Definition py_range (start stop step : nat) : list nat :=
  map (fun t => start + t * step) (seq 0 ((stop - start + step - 1) / step)).

(** ** Python strings *)

(** [s[:-1]] *)
Fixpoint drop_last_char (s : string) : string :=
  match s with
  | EmptyString => EmptyString
  | String c EmptyString => EmptyString
  | String c s' => String c (drop_last_char s')
  end.

(** [sub in s] *)
Fixpoint contains (sub s : string) : bool :=
  prefix sub s ||
  match s with
  | EmptyString => false
  | String _ s' => contains sub s'
  end.

(** [s.split(sep)] for a non-empty separator: [skip] counts the characters of
    a separator just matched that are still to be passed over, [cur] is the
    piece being read. *)
Fixpoint split_go (sep s : string) (skip : nat) (cur : string) : list string :=
  match s with
  | EmptyString => [cur]
  | String c s' =>
      match skip with
      | S k => split_go sep s' k cur
      | O =>
          if prefix sep s
          then cur :: split_go sep s' (String.length sep - 1) EmptyString
          else split_go sep s' 0 (cur ++ String c EmptyString)
      end
  end.

Definition split (sep s : string) : list string := split_go sep s 0 EmptyString.

(** [sep.join(l)] *)
Definition join (sep : string) (l : list string) : string := String.concat sep l.

(** [s.replace(old, new)] for a non-empty [old]. *)
Fixpoint replace_go (old new s : string) (skip : nat) : string :=
  match s with
  | EmptyString => EmptyString
  | String c s' =>
      match skip with
      | S k => replace_go old new s' k
      | O =>
          if prefix old s
          then new ++ replace_go old new s' (String.length old - 1)
          else String c (replace_go old new s' 0)
      end
  end.

Definition replace (old new s : string) : string := replace_go old new s 0.

(** ** The tokenizer boundary

    The tokenizer is an external collaborator.  [encode] is
    [tokenizer.encode(text)]: the ids of one text, special tokens included.
    Calling the tokenizer on a list of prompts with [padding=True] pads every
    row to the longest one of that batch, on the side the tokenizer is
    configured with, and returns an attention mask holding 1 at the tokens
    and 0 at the padding. *)

Record BatchEncoding : Type := {
  input_ids : list (list Z);
  attention_mask : list (list Z)
}.

(** [t.sum()] over one row of integers *)
Definition zsum (l : list Z) : Z := fold_right Z.add 0%Z l.

(** [input_tokens["attention_mask"].sum(dim=1) - 1] *)
Definition last_token_indices (b : BatchEncoding) : list Z :=
  map (fun mask => (zsum mask - 1)%Z) (attention_mask b).

(** What the code relies on from the tokenizer: the batch is rectangular,
    with one mask row per row of token ids, every row being
    [sequence_length] long, and the mask holds only 0 and 1. *)
Definition well_formed_batch (sequence_length : nat) (b : BatchEncoding) : Prop :=
  List.length (attention_mask b) = List.length (input_ids b)
  /\ Forall (fun ids => List.length ids = sequence_length) (input_ids b)
  /\ Forall (fun mask =>
               List.length mask = sequence_length
               /\ Forall (fun m => m = 0%Z \/ m = 1%Z) mask)
            (attention_mask b).

Section Tokenizer.

Variable encode : string -> list Z.
Variable pad_token_id : Z.
Variable padding_left : bool.

Definition seq_len (prompts : list string) : nat :=
  fold_right Nat.max 0 (map (fun p => List.length (encode p)) prompts).

Definition pad_ids (m : nat) (ids : list Z) : list Z :=
  let padding := repeat pad_token_id (m - List.length ids) in
  if padding_left then padding ++ ids else ids ++ padding.

Definition pad_mask (m : nat) (ids : list Z) : list Z :=
  let ones := repeat 1%Z (List.length ids) in
  let zeros := repeat 0%Z (m - List.length ids) in
  if padding_left then zeros ++ ones else ones ++ zeros.

(** [tokenizer(prompts, padding=True, return_tensors="pt")] *)
Definition tokenizer (prompts : list string) : BatchEncoding :=
  let m := seq_len prompts in
  {| input_ids := map (fun p => pad_ids m (encode p)) prompts;
     attention_mask := map (fun p => pad_mask m (encode p)) prompts |}.

(** *** Pieces of a dataset sentence shared by the editors *)

(** [" ".join(sentence.split(" ")[:-1])] *)
Definition strip_answer (sentence : string) : string :=
  join " " (removelast (split " " sentence)).

(** [sentence.split(" ")[-1][:-1]] *)
Definition answer_word (sentence : string) : result string :=
  let* w := getitem (split " " sentence) (-1) in
  ok (drop_last_char w).

(** [tokenizer.encode(word)[1]]: index 0 is the sentence-start marker of a
    llama-like tokenizer. *)
Definition content_token (word : string) : result Z :=
  getitem (encode word) 1.

(** *** [change_box_label] *)

(** The three chained [replace] calls on the original prompt. *)
Definition relabel_digits (org_prompt : string) : string :=
  replace " 2" " 9" (replace " 1" " 4" (replace " 0" " 6" org_prompt)).

(** The label token of a sentence, as every loop body computes it. *)
Definition sentence_label (sentence : string) : result Z :=
  let* label := answer_word sentence in
  content_token label.

(** The two prompts a sentence contributes to the batch. *)
Definition prompt_pair (sentence : string) : list string :=
  [strip_answer sentence; relabel_digits (strip_answer sentence)].

(** One iteration of the loop over [range(num_samples)]; the loop-carried
    variables are [prompts] and [labels]. *)
Definition change_box_label_body (data : list string) (i : nat)
    (st : list string * list Z) : result (list string * list Z) :=
  let '(prompts, labels) := st in
  let* sentence := getnat data i in
  let org_prompt := strip_answer sentence in
  let prompts := prompts ++ [org_prompt] in
  let* label := answer_word sentence in
  let* tok := content_token label in
  let labels := labels ++ [tok] in
  let new_prompt := relabel_digits org_prompt in
  let prompts := prompts ++ [new_prompt] in
  let* tok' := content_token label in
  ok (prompts, labels ++ [tok']).

Definition change_box_label (data : list string) (num_samples : nat)
  : result (list (list Z) * list Z * list Z) :=
  if (List.length data <? num_samples)%nat then raise AssertionError else
  let* (prompts, labels) :=
    for_each (change_box_label_body data) (seq 0 num_samples) ([], []) in
  let input_tokens := tokenizer prompts in
  ok (input_ids input_tokens, last_token_indices input_tokens, labels).

(** *** [change_query_box_pos] *)

(** The five lists the samplers build, in the order they return them. *)
Definition aligned : Type :=
  (list (list Z) * list Z * list (list Z) * list Z * list Z)%type.

Definition change_query_box_pos_body
    (input_ids : list (list Z)) (last_token_indices output_ids : list Z)
    (i : nat) (st : aligned) : result aligned :=
  let '(base_ids, base_pos, source_ids, source_pos, ctf) := st in
  let* b := getnat input_ids i in
  let* bp := getnat last_token_indices i in
  let* s := getnat input_ids (i + 1) in
  let* sp := getnat last_token_indices (i + 1) in
  let* c := getnat output_ids i in
  ok (base_ids ++ [b], base_pos ++ [bp], source_ids ++ [s],
      source_pos ++ [sp], ctf ++ [c]).

Definition change_query_box_pos (data : list string) (num_samples : nat)
  : result aligned :=
  let* (input_ids, last_token_indices, output_ids) :=
    change_box_label data num_samples in
  for_each (change_query_box_pos_body input_ids last_token_indices output_ids)
           (py_range 0 num_samples 2) ([], [], [], [], []).

End Tokenizer.

(** The [n] entries of the five lists of [change_query_box_pos] describe,
    entry by entry, one sentence each: entry [i] takes its base side from row
    [2 * i] and its source side from row [2 * i + 1] of what
    [change_box_label] returned, and its label from entry [2 * i]. *)
Definition paired_rows (input_ids : list (list Z))
    (last_token_indices output_ids : list Z) (n : nat) (r : aligned) : Prop :=
  let '(base_ids, base_pos, source_ids, source_pos, ctf) := r in
  List.length base_ids = n
  /\ List.length base_pos = n
  /\ List.length source_ids = n
  /\ List.length source_pos = n
  /\ List.length ctf = n
  /\ forall i, i < n ->
       nth_error base_ids i = nth_error input_ids (2 * i)
       /\ nth_error base_pos i = nth_error last_token_indices (2 * i)
       /\ nth_error source_ids i = nth_error input_ids (2 * i + 1)
       /\ nth_error source_pos i = nth_error last_token_indices (2 * i + 1)
       /\ nth_error ctf i = nth_error output_ids (2 * i).

(** ** The [random] module

    The module-level functions of [random] share one hidden generator.  Its
    state is the sequence of raw draws still to come: [draws g n] is the
    [n]-th raw value the generator yields and [cursor g] the number of
    values consumed so far.  One call of the module's [_randbelow(n)]
    consumes one raw draw. *)

Record rng : Type := { draws : nat -> nat; cursor : nat }.

Definition Rand (A : Type) : Type := rng -> result A * rng.

Definition rret {A} (a : A) : Rand A := fun g => (ok a, g).

Definition lift {A} (r : result A) : Rand A := fun g => (r, g).

Definition rand_bind {A B} (m : Rand A) (k : A -> Rand B) : Rand B :=
  fun g =>
    match m g with
    | (inl e, g') => (inl e, g')
    | (inr a, g') => k a g'
    end.

Notation "x <- m ;; k" := (rand_bind m (fun x => k))
  (at level 61, m at next level, right associativity).

Definition randbelow (n : nat) : Rand nat :=
  fun g => (ok (draws g (cursor g) mod n),
            {| draws := draws g; cursor := S (cursor g) |}).

(** [random.choice(seq)] *)
Definition random_choice {A} (l : list A) : Rand A :=
  match l with
  | [] => lift (raise IndexError)
  | _ => j <- randbelow (List.length l) ;; lift (getnat l j)
  end.

(** [random.randint(a, b)]: both ends are included. *)
Definition random_randint (a b : Z) : Rand Z :=
  if (b <? a)%Z then lift (raise (ValueError "empty range for randrange()"))
  else j <- randbelow (Z.to_nat (b - a + 1)) ;; rret (a + Z.of_nat j)%Z.

(** [x[i], x[j] = x[j], x[i]] *)
Definition swap {A} (x : list A) (i j : nat) : list A :=
  match nth_error x i, nth_error x j with
  | Some xi, Some xj =>
      let x1 := firstn i x ++ xj :: skipn (S i) x in
      firstn j x1 ++ xi :: skipn (S j) x1
  | _, _ => x
  end.

(** [random.shuffle(x)]: for [i] from [len(x) - 1] down to 1, exchange
    [x[i]] with [x[_randbelow(i + 1)]]. *)
Fixpoint shuffle_from {A} (i : nat) (x : list A) : Rand (list A) :=
  match i with
  | O => rret x
  | S i' => j <- randbelow (S i) ;; shuffle_from i' (swap x i j)
  end.

Definition random_shuffle {A} (x : list A) : Rand (list A) :=
  shuffle_from (List.length x - 1) x.

(** [for] loops whose body draws random numbers. *)
Fixpoint rfor {A S} (body : A -> S -> Rand S) (xs : list A) (s : S) : Rand S :=
  match xs with
  | [] => rret s
  | x :: xs' => s' <- body x s ;; rfor body xs' s'
  end.

Inductive flow : Type := Continue | Break.

Fixpoint rfor_break {A S} (body : A -> S -> Rand (flow * S)) (xs : list A)
    (s : S) : Rand S :=
  match xs with
  | [] => rret s
  | x :: xs' =>
      r <- body x s ;;
      match r with
      | (Break, s') => rret s'
      | (Continue, s') => rfor_break body xs' s'
      end
  end.

(** [l.remove(x)] on a list of integers *)
Fixpoint list_remove (x : nat) (l : list nat) : result (list nat) :=
  match l with
  | [] => raise (ValueError "list.remove(x): x not in list")
  | y :: l' =>
      if Nat.eqb x y then ok l'
      else let* r := list_remove x l' in ok (y :: r)
  end.

(** ** The editors that move the query to another box position

    [alter_box_object_association], [diff_index_query_box] and their siblings
    repeat one loop body; they differ in how the sampled source prompt is
    rewritten and in which base segment supplies the label. *)

(** [[idx for idx, segment in enumerate(segments) if label in segment]] *)
Fixpoint matching_from (label : string) (idx : nat) (segments : list string)
  : list nat :=
  match segments with
  | [] => []
  | segment :: rest =>
      if contains label segment
      then idx :: matching_from label (S idx) rest
      else matching_from label (S idx) rest
  end.

Definition matching_indices (label : string) (segments : list string) : list nat :=
  matching_from label 0 segments.

(** The comprehension indexed at 0, as every lookup of a query box reads it:
    the first of the matching indices, [IndexError] when there is none. *)
Definition first_matching_segment (label : string) (segments : list string)
  : result nat :=
  getitem (matching_indices label segments) 0.

(** [sub] occurs in [s] as a run of consecutive characters. *)
Definition is_substring (sub s : string) : Prop :=
  exists before after, s = (before ++ sub ++ after)%string.

(** The lookup as the specification words it: the segments that hold the
    label as a whole token, a token being one of the segment's words. *)
Fixpoint whole_token_from (label : string) (idx : nat) (segments : list string)
  : list nat :=
  match segments with
  | [] => []
  | segment :: rest =>
      if existsb (String.eqb label) (split " " segment)
      then idx :: whole_token_from label (S idx) rest
      else whole_token_from label (S idx) rest
  end.

Definition whole_token_indices (label : string) (segments : list string)
  : list nat :=
  whole_token_from label 0 segments.

(** The lookup of the base prompt's query box: the segments scanned are
    those of [base_query.split(". ")[0]]. *)
Definition base_query_box_pos (base_prompt : string) : result nat :=
  let* base_query := getitem (split ". " base_prompt) (-1) in
  let* base_query_box_label := getitem (split " " base_query) 1 in
  let* scanned := getitem (split ". " base_query) 0 in
  let* pos := first_matching_segment base_query_box_label (split ", " scanned) in
  if (Z.of_nat pos =? -1)%Z
  then raise (ValueError "Box label not found in the base prompt")
  else ok pos.

(** The lookup of the source prompt's query box: the segments scanned are
    those of [source_prompt.split(". ")[0]]. *)
Definition source_query_box_pos (source_prompt : string) : result nat :=
  let* source_query := getitem (split ". " source_prompt) (-1) in
  let* source_query_box_label := getitem (split " " source_query) 1 in
  let* scanned := getitem (split ". " source_prompt) 0 in
  first_matching_segment source_query_box_label (split ", " scanned).

(** What one editor call accumulates before it tokenizes. *)
Definition examples : Type := (list string * list string * list Z)%type.

Section Editors.

Variable encode : string -> list Z.
Variable pad_token_id : Z.
Variable padding_left : bool.

(** The [while source_query_box_pos == base_query_box_pos] loop.  The
    assignment before it makes the test true on entry, so the body runs
    at least once; every pass removes the drawn index from
    [random_choices], and [random.choice] raises on the empty list.
    [fuel] bounds the number of passes. *)
Fixpoint draw_source (fuel : nat) (data : list string)
    (base_query_box_pos : nat) (random_choices : list nat)
  : Rand (string * nat) :=
  match fuel with
  | O => lift (raise NonTermination)
  | S fuel' =>
      random_source_index <- random_choice random_choices ;;
      sentence <- lift (getnat data random_source_index) ;;
      let source_prompt := strip_answer sentence in
      pos <- lift (source_query_box_pos source_prompt) ;;
      random_choices <- lift (list_remove random_source_index random_choices) ;;
      if Nat.eqb pos base_query_box_pos
      then draw_source fuel' data base_query_box_pos random_choices
      else rret (source_prompt, pos)
  end.

Section Policy.

(** How the editor rewrites the sampled source prompt, given the
    position of its query box. *)
Variable perturb : string -> nat -> result string.
(** Which segment of the base context supplies the label. *)
Variable label_slot : nat -> nat.

Definition editor_body (data : list string) (num_samples : nat)
    (i : nat) (st : examples) : Rand examples :=
  let '(base_prompts, source_prompts, labels) := st in
  sentence <- lift (getnat data i) ;;
  let base_prompt := strip_answer sentence in
  base_pos <- lift (base_query_box_pos base_prompt) ;;
  let base_prompts := base_prompts ++ [base_prompt] in
  random_choices <- random_shuffle (seq 0 num_samples) ;;
  drawn <- draw_source (S (List.length random_choices)) data base_pos
             random_choices ;;
  let '(source_prompt, source_pos) := drawn in
  source_prompt <- lift (perturb source_prompt source_pos) ;;
  let source_prompts := source_prompts ++ [source_prompt] in
  base_context <- lift (getitem (split ". " base_prompt) 0) ;;
  segment <- lift (getnat (split ", " base_context) (label_slot source_pos)) ;;
  correct_object <- lift (getitem (split " " segment) 1) ;;
  tok <- lift (content_token encode correct_object) ;;
  rret (base_prompts, source_prompts, labels ++ [tok]).

(** The loop over [range(0, num_samples)]. *)
Definition editor_examples (data : list string) (num_samples : nat)
  : Rand examples :=
  if (List.length data <? num_samples)%nat then lift (raise AssertionError)
  else rfor (editor_body data num_samples) (seq 0 num_samples) ([], [], []).

(** The tokenization of both prompt lists that ends every editor. *)
Definition editor (data : list string) (num_samples : nat) : Rand aligned :=
  ex <- editor_examples data num_samples ;;
  let '(base_prompts, source_prompts, labels) := ex in
  let base := tokenizer encode pad_token_id padding_left base_prompts in
  let source := tokenizer encode pad_token_id padding_left source_prompts in
  rret (input_ids base, last_token_indices base,
        input_ids source, last_token_indices source, labels).

End Policy.

(** The rewriting of the source prompt in [alter_box_object_association]:
    the segment of the query box has [" is in"] replaced by
    [" is not in"], and the prompt is put together again. *)
Definition negate_association (source_prompt : string)
    (source_query_box_pos : nat) : result string :=
  let* context := getitem (split ". " source_prompt) 0 in
  let segments := split ", " context in
  let* source_segment := getnat segments source_query_box_pos in
  let source_segment := replace " is in" " is not in" source_segment in
  let* query := getitem (split ". " source_prompt) (-1) in
  ok (join ", " (firstn source_query_box_pos segments)
      ++ (if Nat.eqb source_query_box_pos 0 then "" else ", ")
      ++ source_segment
      ++ (if Nat.eqb source_query_box_pos (List.length segments - 1)
          then "" else ", ")
      ++ join ", " (skipn (source_query_box_pos + 1) segments)
      ++ ". "
      ++ query)%string.

Definition alter_box_object_association_examples :=
  editor_examples negate_association (fun pos => pos).

Definition alter_box_object_association :=
  editor negate_association (fun pos => pos).

(** [diff_index_query_box] keeps the source prompt as drawn and reads the
    label at [(source_query_box_pos + 1) % 7]. *)
Definition diff_index_query_box_examples :=
  editor_examples (fun source_prompt _ => ok source_prompt)
                  (fun pos => (pos + 1) mod 7).

Definition diff_index_query_box :=
  editor (fun source_prompt _ => ok source_prompt)
         (fun pos => (pos + 1) mod 7).

End Editors.

(** ** Samplers over whole dataset sentences *)

Definition llama_like : list string :=
  ["AlignableLlamaForCausalLM"; "LLaMAForCausalLM"; "LlamaForCausalLM";
   "LlaMAForCausalLM"].

Definition in_strings (s : string) (l : list string) : bool :=
  existsb (String.eqb s) l.

(** What the aligners return. *)
Record AlignerOutput : Type := {
  all_base_input_ids : list (list Z);
  all_base_input_last_pos : list Z;
  all_source_input_ids : list (list Z);
  all_source_input_last_pos : list Z;
  all_ctf_output_ids : list Z;
  all_intervention_ids : list Z;
  all_incorrect_output_ids : list Z
}.

(** [row[i] = v] on one row of a tensor *)
Definition setitem (row : list Z) (i : Z) (v : Z) : result (list Z) :=
  let n := Z.of_nat (List.length row) in
  let j := if (i <? 0)%Z then (i + n)%Z else i in
  if ((j <? 0) || (n <=? j))%Z then raise IndexError
  else ok (firstn (Z.to_nat j) row ++ v :: skipn (S (Z.to_nat j)) row).

(** The first [n] entries of an aligner's six parallel lists describe, entry
    by entry, one example each: entry [p] of the base ids, base positions and
    counterfactual labels is row [p] of what the sampler returned, its
    intervention id is 0, and its source ids and source position both come
    from one sampled row [r], the ids with the token third from the end
    overwritten. *)
Definition aligned_rows (input_ids : list (list Z))
    (last_token_indices output_ids : list Z) (n : nat) (o : AlignerOutput)
  : Prop :=
  List.length (all_base_input_ids o) = n
  /\ List.length (all_base_input_last_pos o) = n
  /\ List.length (all_source_input_ids o) = n
  /\ List.length (all_source_input_last_pos o) = n
  /\ List.length (all_ctf_output_ids o) = n
  /\ List.length (all_intervention_ids o) = n
  /\ forall p, p < n ->
       nth_error (all_base_input_ids o) p = nth_error input_ids p
       /\ nth_error (all_base_input_last_pos o) p = nth_error last_token_indices p
       /\ nth_error (all_ctf_output_ids o) p = nth_error output_ids p
       /\ nth_error (all_intervention_ids o) p = Some 0%Z
       /\ exists r src tok row,
            nth_error input_ids r = Some src
            /\ setitem src (-3) tok = ok row
            /\ nth_error (all_source_input_ids o) p = Some row
            /\ nth_error (all_source_input_last_pos o) p
               = nth_error last_token_indices r.

(** [chr(n)] as a one-character string *)
Definition chr (n : Z) : string := String (ascii_of_nat (Z.to_nat n)) EmptyString.

Section Samplers.

Variable encode : string -> list Z.
Variable pad_token_id : Z.
Variable padding_left : bool.

(** The label token chosen by the architecture tag. *)
Definition label_token (architecture label : string) : result Z :=
  if in_strings architecture llama_like then getitem (encode label) 1
  else if String.eqb architecture "GPT2LMHeadModel" then getitem (encode label) 0
  else raise (ValueError ("Unknown architecture " ++ architecture)).

Definition entity_tracking_example_sampler_body (data : list string)
    (architecture : string) (i : nat) (st : list string * list Z)
  : result (list string * list Z) :=
  let '(prompts, labels) := st in
  let* sentence := getnat data i in
  let* label := answer_word sentence in
  let prompt := strip_answer sentence in
  let prompts := prompts ++ [prompt] in
  let* tok := label_token architecture label in
  ok (prompts, labels ++ [tok]).

Definition entity_tracking_example_sampler (data : list string)
    (num_samples : nat) (architecture : string)
  : result (list (list Z) * list Z * list Z) :=
  if (List.length data <? num_samples)%nat then raise AssertionError else
  let* (prompts, labels) :=
    for_each (entity_tracking_example_sampler_body data architecture)
             (seq 0 num_samples) ([], []) in
  let input_tokens := tokenizer encode pad_token_id padding_left prompts in
  ok (input_ids input_tokens, last_token_indices input_tokens, labels).

(** *** [random_samples] *)

(** [while i in existing_indices: i = random.randint(0, len(data))]; the
    loop has no bound of its own, [fuel] bounds the model's. *)
Fixpoint redraw (fuel : nat) (data : list string) (existing_indices : list Z)
    (i : Z) : Rand Z :=
  if existsb (Z.eqb i) existing_indices then
    match fuel with
    | O => lift (raise NonTermination)
    | S fuel' =>
        i' <- random_randint 0 (Z.of_nat (List.length data)) ;;
        redraw fuel' data existing_indices i'
    end
  else rret i.

Definition random_samples_body (fuel : nat) (data : list string)
    (architecture : string) (_ : nat) (st : list Z * list string * list Z)
  : Rand (list Z * list string * list Z) :=
  let '(existing_indices, prompts, labels) := st in
  i <- random_randint 0 (Z.of_nat (List.length data)) ;;
  i <- redraw fuel data existing_indices i ;;
  let existing_indices := existing_indices ++ [i] in
  sentence <- lift (getitem data i) ;;
  label <- lift (answer_word sentence) ;;
  let prompt := strip_answer sentence in
  let prompts := prompts ++ [prompt] in
  tok <- lift (label_token architecture label) ;;
  rret (existing_indices, prompts, labels ++ [tok]).

Definition random_samples (fuel : nat) (data : list string)
    (num_samples : nat) (architecture : string)
  : Rand (list (list Z) * list Z * list Z) :=
  if (List.length data <? num_samples)%nat then lift (raise AssertionError)
  else
    st <- rfor (random_samples_body fuel data architecture)
               (seq 0 num_samples) ([], [], []) ;;
    let '(_, prompts, labels) := st in
    let input_tokens := tokenizer encode pad_token_id padding_left prompts in
    rret (input_ids input_tokens, last_token_indices input_tokens, labels).

(** *** [box_index_aligner_examples] *)

Definition empty_output : AlignerOutput :=
  {| all_base_input_ids := []; all_base_input_last_pos := [];
     all_source_input_ids := []; all_source_input_last_pos := [];
     all_ctf_output_ids := []; all_intervention_ids := [];
     all_incorrect_output_ids := [] |}.

(** The body of the inner loop over [j], with its leading [break]. *)
Definition box_index_aligner_inner
    (input_ids : list (list Z)) (last_token_indices output_ids : list Z)
    (num_samples num_ents_or_ops i j : nat) (out : AlignerOutput)
  : Rand (flow * AlignerOutput) :=
  if (num_samples <=? i + j)%nat then rret (Break, out) else
  base <- lift (getnat input_ids (i + j)) ;;
  base_pos <- lift (getnat last_token_indices (i + j)) ;;
  ctf <- lift (getnat output_ids (i + j)) ;;
  let shift := (j + 1) mod num_ents_or_ops in
  random_source_index <-
    random_choice (py_range 0 (num_samples - shift) num_ents_or_ops) ;;
  let random_source_index := random_source_index + shift in
  source_example <- lift (getnat input_ids random_source_index) ;;
  code <- random_randint 65 90 ;;
  let random_alphabet := chr code in
  random_alphabet_token <- lift (getitem (encode random_alphabet) 1) ;;
  source_example <- lift (setitem source_example (-3) random_alphabet_token) ;;
  source_pos <- lift (getnat last_token_indices random_source_index) ;;
  rret (Continue,
        {| all_base_input_ids := all_base_input_ids out ++ [base];
           all_base_input_last_pos := all_base_input_last_pos out ++ [base_pos];
           all_source_input_ids := all_source_input_ids out ++ [source_example];
           all_source_input_last_pos :=
             all_source_input_last_pos out ++ [source_pos];
           all_ctf_output_ids := all_ctf_output_ids out ++ [ctf];
           all_intervention_ids := all_intervention_ids out ++ [0%Z];
           all_incorrect_output_ids := all_incorrect_output_ids out |}).

(** The two nested loops, over the rows the sampler returned. *)
Definition box_index_aligner_loops
    (input_ids : list (list Z)) (last_token_indices output_ids : list Z)
    (num_samples num_ents_or_ops : nat) : Rand AlignerOutput :=
  match num_ents_or_ops with
  | O => lift (raise (ValueError "range() arg 3 must not be zero"))
  | _ =>
      rfor (fun i out =>
              rfor_break
                (box_index_aligner_inner input_ids last_token_indices
                   output_ids num_samples num_ents_or_ops i)
                (seq 0 num_ents_or_ops) out)
           (py_range 0 num_samples num_ents_or_ops) empty_output
  end.

Definition box_index_aligner_examples (data : list string)
    (num_samples num_ents_or_ops : nat) (architecture : string)
  : Rand AlignerOutput :=
  sampled <- lift (entity_tracking_example_sampler data num_samples architecture) ;;
  let '(input_ids, last_token_indices, output_ids) := sampled in
  box_index_aligner_loops input_ids last_token_indices output_ids
    num_samples num_ents_or_ops.

End Samplers.

(** ** [analysis_utils.py]: the patching metric *)

(** Tensor entries are IEEE-754 binary floating-point numbers of the tensor's
    dtype, [prec] bits of precision and maximal exponent [emax]. *)
Definition float : Type := spec_float.

(** What a global name of a module may be bound to. *)
Inductive pyobj : Type :=
| PyNumber (x : float)
| PyFunction
| PyModule.

Definition namespace : Type := list (string * pyobj).

(** Loading a name that is not a local variable of the running function. *)
Fixpoint load_global (name : string) (globals : namespace) : result pyobj :=
  match globals with
  | [] => raise (NameError name)
  | (n, v) :: rest => if String.eqb n name then ok v else load_global name rest
  end.

(** The names [analysis_utils.py] binds at module level: its imports and its
    functions. *)
Definition analysis_utils_globals : namespace :=
  [("math", PyModule); ("torch", PyModule); ("einsum", PyFunction);
   ("TraceDict", PyFunction); ("apply_causal_mask", PyFunction);
   ("rotate_half", PyFunction); ("apply_rotary_pos_emb", PyFunction);
   ("get_attn_scores", PyFunction); ("perf_metric", PyFunction);
   ("compute_topk_components", PyFunction)].

Section PerfMetric.

Variables prec emax : Z.

(** [torch.log_softmax(row, dim=-1)] on one row of logits. *)
Variable log_softmax : list float -> list float.

(** [logits[0, pos]] on a tensor of shape (batch, seq, vocab) *)
Definition logits_at (logits : list (list (list float))) (pos : Z)
  : result (list float) :=
  let* first := getitem logits 0 in
  getitem first pos.

(** The numerator and the denominator of the ratio.  The [print] of the three
    shapes does not bear on the result and is left out. *)
Definition perf_terms (patched_logits : list (list (list float))) (answer : Z)
    (base_logits source_logits : list (list (list float)))
    (base_last_token_pos source_last_token_pos : Z) : result (float * float) :=
  let* p := logits_at patched_logits base_last_token_pos in
  let patched := log_softmax p in
  let* c := logits_at source_logits source_last_token_pos in
  let corrupt := log_softmax c in
  let* b := logits_at base_logits (-1) in
  let clean := log_softmax b in
  let* pa := getitem patched answer in
  let* ca := getitem corrupt answer in
  let numerator := SFsub prec emax pa ca in
  let* cla := getitem clean answer in
  let* ca' := getitem corrupt answer in
  let denominator := SFsub prec emax cla ca' in
  ok (numerator, denominator).

(** [score] after [score += numerator / denominator], from [score = 0]. *)
Definition perf_score (patched_logits : list (list (list float))) (answer : Z)
    (base_logits source_logits : list (list (list float)))
    (base_last_token_pos source_last_token_pos : Z) : result float :=
  let* (numerator, denominator) :=
    perf_terms patched_logits answer base_logits source_logits
               base_last_token_pos source_last_token_pos in
  ok (SFadd prec emax (S754_zero false) (SFdiv prec emax numerator denominator)).

(** [perf_metric], run with the module's global names [globals]:
    [batch_size] is neither a parameter nor assigned in the body, so the
    final [score / batch_size] loads it as a global. *)
Definition perf_metric (globals : namespace)
    (patched_logits : list (list (list float))) (answer : Z)
    (base_logits source_logits : list (list (list float)))
    (base_last_token_pos source_last_token_pos : Z) : result float :=
  let* score :=
    perf_score patched_logits answer base_logits source_logits
               base_last_token_pos source_last_token_pos in
  let* batch_size := load_global "batch_size" globals in
  match batch_size with
  | PyNumber n => ok (SFdiv prec emax score n)
  | _ => raise TypeError
  end.

End PerfMetric.

(** ** [analysis_utils.py]: the top-k components *)

(** Whether [torch.topk] ranks the value [v] strictly before [w]: [v] is the
    larger one when [largest], the smaller one otherwise.  The comparison is
    that of IEEE 754; it is false as soon as one side is NaN. *)
Definition ranks_strictly_before (largest : bool) (v w : float) : bool :=
  if largest then SFltb w v else SFltb v w.

(** [torch.topk(t, k, largest=largest).indices] belongs to the tensor
    library.  This is what the library documents of the result [r] of one
    call on a one-dimensional [t] that holds at least [k] entries, [sorted]
    being left at its default: [r] holds [k] distinct positions of [t], in
    rank order, and no entry left out ranks strictly before an entry
    returned.  The order among equal entries is no part of it. *)
Definition topk_contract (t : list float) (k : nat) (largest : bool)
    (r : result (list nat)) : Prop :=
  exists top_indices,
    r = ok top_indices
    /\ List.length top_indices = k
    /\ NoDup top_indices
    /\ Forall (fun i => i < List.length t) top_indices
    /\ (forall p q, p < q < k ->
          ranks_strictly_before largest
            (nth (nth q top_indices 0) t (S754_zero false))
            (nth (nth p top_indices 0) t (S754_zero false)) = false)
    /\ (forall i j, In i top_indices -> j < List.length t ->
                    ~ In j top_indices ->
          ranks_strictly_before largest
            (nth j t (S754_zero false)) (nth i t (S754_zero false)) = false).

(** [patching_scores[r, c]] *)
Definition score_at (patching_scores : list (list float)) (r c : nat) : float :=
  nth c (nth r patching_scores []) (S754_zero false).

Section TopK.

(** [topk t k largest] is [torch.topk(t, k, largest=largest).indices]. *)
Variable topk : list float -> nat -> bool -> result (list nat).

(** [compute_topk_components]: [patching_scores.flatten()] is the
    concatenation of the rows and [patching_scores.shape[1]] the length of a
    row of the grid. *)
Definition compute_topk_components (patching_scores : list (list float))
    (k : nat) (largest : bool) : result (list (list nat)) :=
  let* top_indices := topk (List.concat patching_scores) k largest in
  let shape1 := List.length (hd [] patching_scores) in
  let row_indices := map (fun t => t / shape1) top_indices in
  let col_indices := map (fun t => t mod shape1) top_indices in
  let top_components :=
    map (fun rc => [fst rc; snd rc]) (combine row_indices col_indices) in
  ok top_components.

End TopK.

(** ** Seeding and repeated invocation *)

Section Seeding.

(** [seeded_draws a] is the sequence of raw draws the generator yields
    after [random.seed(a)]. *)
Variable seeded_draws : Z -> nat -> nat.



End Seeding.



(** ** Concrete inputs used in the examples *)

Module Fixtures.

(** A character-level tokenizer: a sentence-start marker, then one id per
    character. *)
Definition char_encode (s : string) : list Z :=
  1%Z :: map (fun c => Z.of_nat (nat_of_ascii c)) (list_ascii_of_string s).

(** A generator whose [n]-th raw draw is [a + n]. *)
Definition counting (a : nat) : rng := {| draws := fun n => a + n; cursor := 0 |}.

(** A generator that replays the raw draws of [l], then yields 0. *)
Definition replay (l : list nat) : rng :=
  {| draws := fun n => nth n l 0; cursor := 0 |}.

(** The dataset line of the end-to-end scenario. *)
Definition scenario_sentence : string :=
  "The watch is in Box A, the pen is in Box B, the cup is in Box C. Box B contains pen.".

Definition scenario_prompt : string :=
  "The watch is in Box A, the pen is in Box B, the cup is in Box C. Box B contains".

(** A sentence whose query names a box that no context segment mentions. *)
Definition orphan_sentence : string :=
  "The watch is in Box A, the pen is in Box D, the cup is in Box C. Box Z contains pen.".

Definition cup_sentence : string :=
  "The watch is in Box A, the pen is in Box D, the cup is in Box C. Box C contains cup.".

Definition pen_sentence : string :=
  "The watch is in Box A, the pen is in Box D, the cup is in Box C. Box D contains pen.".

(** IEEE single precision *)
Definition prec32 : Z := 24.
Definition emax32 : Z := 128.

(** The number 1 in single precision. *)
Definition one32 : float := S754_finite false 8388608 (-23).

(** A stand-in for [torch.log_softmax] on rows that already hold
    log-probabilities. *)
Definition given_log_probs (row : list float) : list float := row.

(** Logits of shape (1, 1, 2) with the value [x] at token 0. *)
Definition logits_with (x : float) : list (list (list float)) :=
  [[[x; S754_zero false]]].

(** The numbers 2, 3, 5 and 9 in single precision. *)
Definition two32 : float := S754_finite false 8388608 (-22).
Definition three32 : float := S754_finite false 12582912 (-22).
Definition five32 : float := S754_finite false 10485760 (-21).
Definition nine32 : float := S754_finite false 9437184 (-20).

(** Insertion sort of indexed entries by the relation [before]. *)
Fixpoint insert_by (before : nat * float -> nat * float -> bool)
    (p : nat * float) (l : list (nat * float)) : list (nat * float) :=
  match l with
  | [] => [p]
  | q :: rest =>
      if before p q then p :: l else q :: insert_by before p rest
  end.

Definition sort_by (before : nat * float -> nat * float -> bool)
    (l : list (nat * float)) : list (nat * float) :=
  fold_right (insert_by before) [] l.

(** Ranking by value, [tie] deciding among equal values. *)
Definition by_value (largest : bool) (tie : nat -> nat -> bool)
    (p q : nat * float) : bool :=
  ranks_strictly_before largest (snd p) (snd q)
  || (negb (ranks_strictly_before largest (snd q) (snd p))
      && tie (fst p) (fst q)).

(** A top-k selection that keeps, among equal entries, those that come
    later, and lists what it keeps by value, equal entries in index order. *)
Definition topk_keeping_later (t : list float) (k : nat) (largest : bool)
  : result (list nat) :=
  if (List.length t <? k)%nat then raise RuntimeError
  else
    let entries := combine (seq 0 (List.length t)) t in
    let kept :=
      firstn k (sort_by (by_value largest (fun i j => (j <=? i)%nat)) entries) in
    ok (map fst (sort_by (by_value largest Nat.leb) kept)).

(** Four dataset lines with distinct prompts and answers. *)
Definition four_prompts : list string :=
  ["The watch is in Box 0, the pen is in Box 1. Box 1 contains";
   "The cup is in Box 2, the key is in Box 0. Box 2 contains";
   "The map is in Box 1, the hat is in Box 2. Box 2 contains";
   "The ring is in Box 0, the book is in Box 2. Box 0 contains"].

Definition four_objects : list string := ["pen"; "cup"; "hat"; "ring"].

Definition four_sentences : list string :=
  map (fun po => (fst po ++ " " ++ snd po ++ ".")%string)
      (combine four_prompts four_objects).


End Fixtures.

(** ** The other editors that move the query to another box position

    Ten more functions repeat the loop of [alter_box_object_association]
    and differ only in how they rewrite the sampled source prompt.  Text is
    taken to be ASCII. *)

(** [c.lower()] on one ASCII character *)
Definition lower_char (c : ascii) : ascii :=
  let n := nat_of_ascii c in
  if ((65 <=? n) && (n <=? 90))%nat then ascii_of_nat (n + 32) else c.

(** [s[0].lower() + s[1:]] *)
Definition lower_first (s : string) : result string :=
  match s with
  | EmptyString => raise IndexError
  | String c rest => ok (String (lower_char c) rest)
  end.

(** The expression that puts a source prompt together again around the
    rewritten segment of its query box: the segments before it, a separator
    unless it is the first, the segment, a separator unless it is the last,
    the segments after it, and the query. *)
Definition splice_segment (source_prompt : string) (source_query_box_pos : nat)
    (source_segment : string) : result string :=
  let* context := getitem (split ". " source_prompt) 0 in
  let segments := split ", " context in
  let* query := getitem (split ". " source_prompt) (-1) in
  ok (join ", " (firstn source_query_box_pos segments)
      ++ (if Nat.eqb source_query_box_pos 0 then "" else ", ")
      ++ source_segment
      ++ (if Nat.eqb source_query_box_pos (List.length segments - 1)
          then "" else ", ")
      ++ join ", " (skipn (source_query_box_pos + 1) segments)
      ++ ". "
      ++ query)%string.

(** The segment of the query box: [source_prompt.split(". ")[0].split(", ")[pos]] *)
Definition query_box_segment (source_prompt : string)
    (source_query_box_pos : nat) : result string :=
  let* context := getitem (split ". " source_prompt) 0 in
  getnat (split ", " context) source_query_box_pos.

(** [add_box_before_correct_segment] *)
Definition announce_boxes (source_prompt : string) (source_query_box_pos : nat)
  : result string :=
  let* source_segment := query_box_segment source_prompt source_query_box_pos in
  let source_segment :=
    if Nat.eqb source_query_box_pos 0
    then ("There are three additional boxes, Box PP, Box BB and Box AA, "
          ++ source_segment)%string
    else ("there are three additional boxes, Box PP, Box BB and Box AA, "
          ++ source_segment)%string in
  splice_segment source_prompt source_query_box_pos source_segment.

(** [additional_token_btw_box_and_object] *)
Definition contained_in_the (source_prompt : string) (source_query_box_pos : nat)
  : result string :=
  let* source_segment := query_box_segment source_prompt source_query_box_pos in
  let source_segment := replace " is in" " is contained in the" source_segment in
  splice_segment source_prompt source_query_box_pos source_segment.

(** [add_raw_text_at_end] and [add_segment_at_end]: [text] goes between the
    context and the query. *)
Definition append_to_context (text : string) (source_prompt : string)
    (_ : nat) : result string :=
  let* context := getitem (split ". " source_prompt) 0 in
  let* query := getitem (split ". " source_prompt) (-1) in
  ok (context ++ text ++ ". " ++ query)%string.

(** [add_raw_text_at_start] and [add_segment_at_start]: [text] goes in front
    of the prompt, whose first letter is lowered. *)
Definition prepend_to_prompt (text : string) (source_prompt : string)
    (_ : nat) : result string :=
  let* lowered := lower_first source_prompt in
  ok (text ++ lowered)%string.

(** [box_object_altered_order]: the segment of the query box is turned
    around, and a separator is written on both of its sides. *)
Definition box_first (source_prompt : string) (source_query_box_pos : nat)
  : result string :=
  let* source_segment := query_box_segment source_prompt source_query_box_pos in
  let* source_box := getitem (split " " source_segment) (-1) in
  let* source_object := getitem (split " " source_segment) 1 in
  let source_segment :=
    ("Box " ++ source_box ++ " contains the " ++ source_object)%string in
  let* context := getitem (split ". " source_prompt) 0 in
  let segments := split ", " context in
  let* query := getitem (split ". " source_prompt) (-1) in
  ok (join ", " (firstn source_query_box_pos segments)
      ++ ", "
      ++ source_segment
      ++ ", "
      ++ join ", " (skipn (source_query_box_pos + 1) segments)
      ++ ". "
      ++ query)%string.

Section MoreEditors.

Variable encode : string -> list Z.

Definition add_box_before_correct_segment_examples :=
  editor_examples encode announce_boxes (fun pos => pos).

Definition additional_token_btw_box_and_object_examples :=
  editor_examples encode contained_in_the (fun pos => pos).

Definition add_raw_text_at_end_examples :=
  editor_examples encode
    (append_to_context ", these are a bunch of boxes containing objects")
    (fun pos => pos).

Definition add_segment_at_end_examples :=
  editor_examples encode (append_to_context ", the apple is in Box O")
    (fun pos => pos).

Definition add_raw_text_at_start_examples :=
  editor_examples encode
    (prepend_to_prompt "There are a bunch of boxes containing objects, ")
    (fun pos => pos).

Definition add_segment_at_start_examples :=
  editor_examples encode (prepend_to_prompt "The apple is in Box O, ")
    (fun pos => pos).

Definition box_object_altered_order_examples :=
  editor_examples encode box_first (fun pos => pos).

(** [add_comma_after_object]: [source_prompt.replace(" is", ", is")] *)
Definition add_comma_after_object_examples :=
  editor_examples encode
    (fun source_prompt _ => ok (replace " is" ", is" source_prompt))
    (fun pos => pos).

(** [remove_comma_desiderata]: [source_prompt.replace(", ", " ")] *)
Definition remove_comma_desiderata_examples :=
  editor_examples encode
    (fun source_prompt _ => ok (replace ", " " " source_prompt))
    (fun pos => pos).

(** [positional_desiderata] keeps the source prompt as drawn. *)
Definition positional_desiderata_examples :=
  editor_examples encode (fun source_prompt _ => ok source_prompt)
    (fun pos => pos).

End MoreEditors.

(** What every editor of the family keeps, whenever it returns: one base
    prompt, one source prompt and one label per requested sample, the base
    prompts being the first [num_samples] sentences without their answers,
    in dataset order. *)
Definition keeps_alignment (run : list string -> nat -> Rand examples) : Prop :=
  forall data num_samples g base_prompts source_prompts labels g',
    run data num_samples g = (ok (base_prompts, source_prompts, labels), g') ->
    base_prompts = map strip_answer (firstn num_samples data)
    /\ List.length source_prompts = num_samples
    /\ List.length labels = num_samples
    /\ num_samples <= List.length data.

(** What the loop body guarantees of the example it builds for sentence [i]:
    the source prompt is the rewriting of a sentence drawn among the first
    [num_samples], whose query box position differs from the one found for
    the base prompt, and the label is the second word of the base segment
    the policy points at. *)
Definition sampled_pair (encode : string -> list Z)
    (perturb : string -> nat -> result string) (label_slot : nat -> nat)
    (data : list string) (num_samples i : nat) (source_prompt : string)
    (label : Z) : Prop :=
  exists sentence idx sampled pos base_pos base_context segment correct_object,
    nth_error data i = Some sentence
    /\ idx < num_samples
    /\ nth_error data idx = Some sampled
    /\ base_query_box_pos (strip_answer sentence) = ok base_pos
    /\ source_query_box_pos (strip_answer sampled) = ok pos
    /\ pos <> base_pos
    /\ perturb (strip_answer sampled) pos = ok source_prompt
    /\ getitem (split ". " (strip_answer sentence)) 0 = ok base_context
    /\ nth_error (split ", " base_context) (label_slot pos) = Some segment
    /\ getitem (split " " segment) 1 = ok correct_object
    /\ content_token encode correct_object = ok label.

(** ** Samplers that regroup or filter dataset rows *)

(** [for] loops of the error monad whose body may [break]. *)
Fixpoint for_each_break {A S} (body : A -> S -> result (flow * S))
    (xs : list A) (s : S) : result S :=
  match xs with
  | [] => ok s
  | x :: xs' =>
      let* r := body x s in
      match r with
      | (Break, s') => ok s'
      | (Continue, s') => for_each_break body xs' s'
      end
  end.

(** The six lists [box_name_alignment_example_sampler] returns, in the order
    it returns them: base ids, base positions, source ids, source positions,
    counterfactual labels, intervention ids. *)
Definition grouped : Type :=
  (list (list Z) * list Z * list (list Z) * list Z * list Z * list Z)%type.

(** The body of the loop over [j]. *)
Definition box_name_alignment_inner
    (input_ids : list (list Z)) (last_token_indices output_ids : list Z)
    (i j : nat) (st : grouped) : result grouped :=
  let '(base_ids, base_pos, source_ids, source_pos, ctf, intervention) := st in
  let* b := getnat input_ids i in
  let* s := getnat input_ids (i + j) in
  let* bp := getnat last_token_indices i in
  let* sp := getnat last_token_indices (i + j) in
  let* c := getnat output_ids (i + j) in
  ok (base_ids ++ [b], base_pos ++ [bp], source_ids ++ [s],
      source_pos ++ [sp], ctf ++ [c], intervention ++ [0%Z]).

(** The body of the loop over [i], with its leading [break]. *)
Definition box_name_alignment_outer
    (input_ids : list (list Z)) (last_token_indices output_ids : list Z)
    (num_samples num_ents_or_ops i : nat) (st : grouped)
  : result (flow * grouped) :=
  if (num_samples <? i + num_ents_or_ops)%nat then ok (Break, st)
  else
    let* st' :=
      for_each (box_name_alignment_inner input_ids last_token_indices
                  output_ids i)
               (seq 0 num_ents_or_ops) st in
    ok (Continue, st').

Definition box_name_alignment_loops
    (input_ids : list (list Z)) (last_token_indices output_ids : list Z)
    (num_samples num_ents_or_ops : nat) : result grouped :=
  match num_ents_or_ops with
  | O => raise (ValueError "range() arg 3 must not be zero")
  | _ =>
      for_each_break
        (box_name_alignment_outer input_ids last_token_indices output_ids
           num_samples num_ents_or_ops)
        (py_range 0 num_samples num_ents_or_ops) ([], [], [], [], [], [])
  end.

(** Entry [t] of the six lists, for the first [n] entries: the base side is
    the first row of the group of [k] rows that [t] lies in, the source side
    and the label are row [t] itself. *)
Definition grouped_rows (input_ids : list (list Z))
    (last_token_indices output_ids : list Z) (k n : nat) (r : grouped) : Prop :=
  let '(base_ids, base_pos, source_ids, source_pos, ctf, intervention) := r in
  List.length base_ids = n
  /\ List.length base_pos = n
  /\ List.length source_ids = n
  /\ List.length source_pos = n
  /\ List.length ctf = n
  /\ List.length intervention = n
  /\ forall t, t < n ->
       nth_error base_ids t = nth_error input_ids (k * (t / k))
       /\ nth_error base_pos t = nth_error last_token_indices (k * (t / k))
       /\ nth_error source_ids t = nth_error input_ids t
       /\ nth_error source_pos t = nth_error last_token_indices t
       /\ nth_error ctf t = nth_error output_ids t
       /\ nth_error intervention t = Some 0%Z.

Section MoreSamplers.

Variable encode : string -> list Z.
Variable pad_token_id : Z.
Variable padding_left : bool.

Definition box_name_alignment_example_sampler (data : list string)
    (num_samples : nat) (architecture : string) (num_ents_or_ops : nat)
  : result grouped :=
  let* (input_ids, last_token_indices, output_ids) :=
    entity_tracking_example_sampler encode pad_token_id padding_left data
      num_samples architecture in
  box_name_alignment_loops input_ids last_token_indices output_ids
    num_samples num_ents_or_ops.

(** *** [get_samples_with_correct_prediction] *)

(** The model is an external collaborator: [predict prompt] is
    [torch.argmax(model(tokenizer(prompt)["input_ids"]).logits[0, -1, :])],
    the token the model ranks first after the prompt. *)
Variable predict : string -> Z.




End MoreSamplers.

(** ** [analysis_utils.py]: rotary embeddings *)

(** [rotate_half] along the last dimension, one vector of it being a list:
    [torch.cat((-x2, x1), dim=-1)] with [x1] the first [len // 2] entries
    and [x2] the others. *)
Definition rotate_half (x : list float) : list float :=
  let half := List.length x / 2 in
  let x1 := firstn half x in
  let x2 := skipn half x in
  map SFopp x2 ++ x1.

(** * Properties *)

(** ** Sequences and loops *)

Lemma getnat_ok {A} (l : list A) (i : nat) (x : A) :
  nth_error l i = Some x -> getnat l i = ok x.
Proof. unfold getnat. now intros ->. Qed.

Lemma getnat_inv {A} (l : list A) (i : nat) (x : A) :
  getnat l i = ok x -> nth_error l i = Some x.
Proof.
  unfold getnat. destruct (nth_error l i); intro H; inversion H; reflexivity.
Qed.

Lemma getitem_nat {A} (l : list A) (i : nat) :
  getitem l (Z.of_nat i) = getnat l i.
Proof.
  unfold getitem, getnat.
  destruct (Z.ltb_spec (Z.of_nat i) 0); [lia|].
  rewrite Nat2Z.id.
  destruct (Z.ltb_spec (Z.of_nat i) 0); [lia|]. simpl.
  destruct (Z.leb_spec (Z.of_nat (List.length l)) (Z.of_nat i)); [|reflexivity].
  destruct (nth_error l i) eqn:E; [|reflexivity].
  assert (i < List.length l) by (apply nth_error_Some; congruence). lia.
Qed.

Lemma for_each_app {A S} (body : A -> S -> result S) (xs ys : list A) (s : S) :
  for_each body (xs ++ ys) s =
  let* s' := for_each body xs s in for_each body ys s'.
Proof.
  revert s. induction xs as [|x xs IH]; intro s; simpl; [reflexivity|].
  destruct (body x s); simpl; [reflexivity|apply IH].
Qed.

Lemma nth_error_Some_lt_length {A} (l : list A) (i : nat) :
  i < List.length l -> exists x, nth_error l i = Some x.
Proof.
  intro H. destruct (nth_error l i) eqn:E; [eauto|].
  apply nth_error_None in E. lia.
Qed.

Lemma firstn_snoc {A} (l : list A) (n : nat) (x : A) :
  nth_error l n = Some x -> firstn (S n) l = firstn n l ++ [x].
Proof.
  revert n. induction l as [|y l IH]; intros [|n] H; simpl in *;
    try discriminate.
  - now inversion H.
  - now rewrite (IH n H).
Qed.

(** ** The tokenized batch *)

Section TokenizerFacts.

Variable encode : string -> list Z.
Variable pad_token_id : Z.
Variable padding_left : bool.

Lemma zsum_app (l1 l2 : list Z) : zsum (l1 ++ l2) = (zsum l1 + zsum l2)%Z.
Proof.
  unfold zsum. induction l1 as [|x l1 IH]; simpl; [reflexivity|].
  rewrite IH. lia.
Qed.

Lemma zsum_repeat (v : Z) (n : nat) : zsum (repeat v n) = (Z.of_nat n * v)%Z.
Proof.
  unfold zsum. induction n as [|n IH]; [reflexivity|].
  cbn [repeat fold_right]. rewrite IH. lia.
Qed.

Lemma zsum_pad_mask (m : nat) (ids : list Z) :
  zsum (pad_mask padding_left m ids) = Z.of_nat (List.length ids).
Proof.
  unfold pad_mask. destruct padding_left;
    rewrite zsum_app, !zsum_repeat; lia.
Qed.

Lemma length_pad_ids (m : nat) (ids : list Z) :
  List.length ids <= m ->
  List.length (pad_ids pad_token_id padding_left m ids) = m.
Proof.
  intro H. unfold pad_ids.
  destruct padding_left; rewrite length_app, repeat_length; lia.
Qed.

Lemma length_pad_mask (m : nat) (ids : list Z) :
  List.length ids <= m -> List.length (pad_mask padding_left m ids) = m.
Proof.
  intro H. unfold pad_mask.
  destruct padding_left; rewrite length_app, !repeat_length; lia.
Qed.

Lemma seq_len_bound (prompts : list string) (p : string) :
  In p prompts -> List.length (encode p) <= seq_len encode prompts.
Proof.
  unfold seq_len. induction prompts as [|q prompts IH]; simpl; [easy|].
  intros [->|H]; [lia|]. specialize (IH H). lia.
Qed.

Lemma last_token_indices_tokenizer (prompts : list string) :
  last_token_indices (tokenizer encode pad_token_id padding_left prompts)
  = map (fun p => (Z.of_nat (List.length (encode p)) - 1)%Z) prompts.
Proof.
  unfold last_token_indices, tokenizer. cbn [attention_mask].
  rewrite map_map. apply map_ext. intro p. now rewrite zsum_pad_mask.
Qed.

Lemma repeat_bits (v : Z) (n : nat) :
  v = 0%Z \/ v = 1%Z -> Forall (fun m => m = 0%Z \/ m = 1%Z) (repeat v n).
Proof. intro H. induction n; simpl; constructor; auto. Qed.

(** The padded batch of the model meets the contract. *)
Lemma tokenizer_well_formed (prompts : list string) :
  well_formed_batch (seq_len encode prompts)
    (tokenizer encode pad_token_id padding_left prompts).
Proof.
  unfold well_formed_batch, tokenizer. cbn [input_ids attention_mask].
  split; [now rewrite !length_map|]. split.
  - apply Forall_forall. intros row Hin.
    apply in_map_iff in Hin as (p & <- & Hp).
    apply length_pad_ids. now apply seq_len_bound.
  - apply Forall_forall. intros row Hin.
    apply in_map_iff in Hin as (p & <- & Hp). split.
    + apply length_pad_mask. now apply seq_len_bound.
    + unfold pad_mask. destruct padding_left; apply Forall_app; split;
        apply repeat_bits; auto.
Qed.



End TokenizerFacts.


(** ** [change_box_label] and [change_query_box_pos] *)

Lemma nth_error_pairs {A B} (f g : A -> B) (l : list A) (i : nat) :
  nth_error (flat_map (fun x => [f x; g x]) l) (2 * i)
  = option_map f (nth_error l i)
  /\ nth_error (flat_map (fun x => [f x; g x]) l) (2 * i + 1)
     = option_map g (nth_error l i).
Proof.
  revert i. induction l as [|x l IH]; intro i.
  - simpl. rewrite !nth_error_nil. destruct i; split; reflexivity.
  - destruct i as [|i]; [split; reflexivity|].
    replace (2 * S i) with (S (S (2 * i))) by lia.
    replace (S (S (2 * i)) + 1) with (S (S (2 * i + 1))) by lia.
    simpl flat_map. cbn [app nth_error]. apply IH.
Qed.

Lemma length_pairs {A B} (f g : A -> B) (l : list A) :
  List.length (flat_map (fun x => [f x; g x]) l) = 2 * List.length l.
Proof. induction l as [|x l IH]; simpl; [reflexivity|]. rewrite IH. lia. Qed.

Lemma py_range_even (n : nat) :
  Nat.even n = true -> py_range 0 n 2 = map (fun t => 2 * t) (seq 0 (n / 2)).
Proof.
  intro H. unfold py_range.
  apply Nat.even_spec in H as [h ->].
  replace ((2 * h - 0 + 2 - 1) / 2) with h.
  2:{ replace (2 * h - 0 + 2 - 1) with (1 + h * 2) by lia.
      rewrite Nat.div_add by lia. reflexivity. }
  replace (2 * h / 2) with h by (rewrite Nat.mul_comm, Nat.div_mul; lia).
  apply map_ext. intro t. lia.
Qed.

Section ChangeBoxLabel.

Variable encode : string -> list Z.
Variable pad_token_id : Z.
Variable padding_left : bool.

Lemma sentence_label_inv (s : string) (t : Z) :
  sentence_label encode s = ok t ->
  exists label, answer_word s = ok label /\ content_token encode label = ok t.
Proof.
  unfold sentence_label. destruct (answer_word s) as [e|label]; simpl.
  - discriminate.
  - intro H. now exists label.
Qed.

(** What the loop of [change_box_label] accumulates. *)
Lemma change_box_label_loop (data : list string) (n : nat) :
  n <= List.length data ->
  (forall i s, i < n -> nth_error data i = Some s ->
               exists t, sentence_label encode s = ok t) ->
  exists toks,
    Forall2 (fun s t => sentence_label encode s = ok t) (firstn n data) toks
    /\ for_each (change_box_label_body encode data) (seq 0 n) ([], [])
       = ok (flat_map prompt_pair (firstn n data),
             flat_map (fun t => [t; t]) toks).
Proof.
  induction n as [|n IH]; intros Hlen Hlab.
  - exists []. split; [constructor|reflexivity].
  - assert (Hn : n <= List.length data) by lia.
    assert (Hlab' : forall i s, i < n -> nth_error data i = Some s ->
                      exists t, sentence_label encode s = ok t)
      by (intros i s Hi; apply Hlab; lia).
    destruct (IH Hn Hlab') as (toks & HF & Hloop).
    assert (Hlt : n < List.length data) by lia.
    destruct (nth_error_Some_lt_length data n Hlt) as [s Hs].
    destruct (Hlab n s (Nat.lt_succ_diag_r n) Hs) as [t Ht].
    destruct (sentence_label_inv s t Ht) as (label & Ha & Hc).
    exists (toks ++ [t]). split.
    + rewrite (firstn_snoc data n s Hs).
      apply Forall2_app; [exact HF|]. constructor; [exact Ht|constructor].
    + rewrite seq_S, for_each_app, Hloop. unfold ok in *.
      cbn [rbind for_each Nat.add]. unfold change_box_label_body.
      rewrite (getnat_ok data n s Hs). unfold ok. cbn [rbind].
      rewrite Ha. cbn [rbind]. rewrite Hc. cbn [rbind].
      rewrite (firstn_snoc data n s Hs), !flat_map_app. cbn [flat_map].
      unfold prompt_pair. rewrite !app_nil_r, <- !app_assoc.
      reflexivity.
Qed.

(** What the loop of [change_query_box_pos] accumulates. *)
Lemma change_query_box_pos_loop (ids : list (list Z)) (lti out : list Z)
    (xs : list nat) (b : list (list Z)) (bp : list Z) (s : list (list Z))
    (sp c : list Z) :
  (forall x, In x xs ->
     x + 1 < List.length ids /\ x + 1 < List.length lti /\ x < List.length out) ->
  for_each (change_query_box_pos_body ids lti out) xs (b, bp, s, sp, c)
  = ok (b ++ map (fun x => nth x ids []) xs,
        bp ++ map (fun x => nth x lti 0%Z) xs,
        s ++ map (fun x => nth (x + 1) ids []) xs,
        sp ++ map (fun x => nth (x + 1) lti 0%Z) xs,
        c ++ map (fun x => nth x out 0%Z) xs).
Proof.
  revert b bp s sp c.
  induction xs as [|x xs IH]; intros b bp s sp c Hin.
  - simpl. now rewrite !app_nil_r.
  - destruct (Hin x (or_introl eq_refl)) as (H1 & H2 & H3).
    cbn [for_each]. unfold change_query_box_pos_body at 1.
    rewrite (getnat_ok ids x (nth x ids []))
      by (apply nth_error_nth'; lia).
    rewrite (getnat_ok lti x (nth x lti 0%Z))
      by (apply nth_error_nth'; lia).
    rewrite (getnat_ok ids (x + 1) (nth (x + 1) ids []))
      by (apply nth_error_nth'; lia).
    rewrite (getnat_ok lti (x + 1) (nth (x + 1) lti 0%Z))
      by (apply nth_error_nth'; lia).
    rewrite (getnat_ok out x (nth x out 0%Z))
      by (apply nth_error_nth'; lia).
    unfold ok at 1 2 3 4 5 6. cbn [rbind].
    rewrite IH by (intros; apply Hin; now right).
    cbn [map]. now rewrite <- !app_assoc.
Qed.

Lemma nth_error_doubled {B} (f : nat -> B) (h i : nat) :
  i < h ->
  nth_error (map f (map (fun t => 2 * t) (seq 0 h))) i = Some (f (2 * i)).
Proof.
  intro H. rewrite map_map.
  rewrite (nth_error_map (fun t => f (2 * t)) i (seq 0 h)).
  rewrite nth_error_seq.
  destruct (Nat.ltb_spec i h); [reflexivity|lia].
Qed.

Lemma nth_of_nth_error {B} (l : list B) (i : nat) (d x : B) :
  nth_error l i = Some x -> nth i l d = x.
Proof. intro H. now apply nth_error_nth. Qed.

(** The pairs of [change_query_box_pos] in terms of the pieces of a
    sentence as the loop of [change_box_label] computes them. *)
Lemma change_query_box_pos_rows (data : list string) (N : nat) :
  Nat.even N = true ->
  N <= List.length data ->
  (forall i s, i < N -> nth_error data i = Some s ->
               exists t, sentence_label encode s = ok t) ->
  exists ids lti out base_ids base_pos source_ids source_pos ctf,
    change_box_label encode pad_token_id padding_left data N
    = ok (ids, lti, out)
    /\ change_query_box_pos encode pad_token_id padding_left data N
       = ok (base_ids, base_pos, source_ids, source_pos, ctf)
    /\ List.length base_ids = N / 2
    /\ List.length base_pos = N / 2
    /\ List.length source_ids = N / 2
    /\ List.length source_pos = N / 2
    /\ List.length ctf = N / 2
    /\ forall i, i < N / 2 ->
         exists s t,
           let row p :=
             pad_ids pad_token_id padding_left
               (seq_len encode (flat_map prompt_pair (firstn N data)))
               (encode p) in
           let last p := (Z.of_nat (List.length (encode p)) - 1)%Z in
           nth_error data i = Some s
           /\ sentence_label encode s = ok t
           /\ nth_error base_ids i = nth_error ids (2 * i)
           /\ nth_error source_ids i = nth_error ids (2 * i + 1)
           /\ nth_error ctf i = nth_error out (2 * i)
           /\ nth_error base_ids i = Some (row (strip_answer s))
           /\ nth_error source_ids i
              = Some (row (relabel_digits (strip_answer s)))
           /\ nth_error base_pos i = Some (last (strip_answer s))
           /\ nth_error source_pos i
              = Some (last (relabel_digits (strip_answer s)))
           /\ nth_error ctf i = Some t.
Proof.
  intros Heven Hlen Hlab.
  destruct (change_box_label_loop data N Hlen Hlab) as (toks & HF & Hloop).
  set (P := flat_map prompt_pair (firstn N data)) in *.
  set (L := flat_map (fun t => [t; t]) toks) in *.
  set (batch := tokenizer encode pad_token_id padding_left P).
  assert (HlenP : List.length P = 2 * N).
  { unfold P, prompt_pair. rewrite length_pairs, length_firstn. lia. }
  assert (HlenL : List.length L = 2 * N).
  { unfold L. rewrite length_pairs, <- (Forall2_length HF), length_firstn. lia. }
  assert (Hcbl : change_box_label encode pad_token_id padding_left data N
                 = ok (input_ids batch, last_token_indices batch, L)).
  { unfold change_box_label.
    destruct (Nat.ltb_spec (List.length data) N); [lia|].
    rewrite Hloop. reflexivity. }
  assert (Hids : List.length (input_ids batch) = 2 * N).
  { unfold batch, tokenizer. cbn [input_ids]. now rewrite length_map. }
  assert (Hlti : List.length (last_token_indices batch) = 2 * N).
  { unfold batch. rewrite last_token_indices_tokenizer. now rewrite length_map. }
  assert (Hhalf : 2 * (N / 2) = N).
  { apply Nat.even_spec in Heven as [h ->].
    rewrite (Nat.mul_comm 2 h), Nat.div_mul; lia. }
  exists (input_ids batch), (last_token_indices batch), L.
  do 5 eexists. split; [exact Hcbl|]. split.
  { unfold change_query_box_pos. rewrite Hcbl. unfold ok at 1. cbn [rbind].
    rewrite (py_range_even N Heven).
    rewrite change_query_box_pos_loop.
    - cbn [app]. reflexivity.
    - intros x Hx. apply in_map_iff in Hx as (t & <- & Ht).
      apply in_seq in Ht. lia. }
  rewrite !length_map, !length_seq.
  repeat (split; [reflexivity|]).
  intros i Hi.
  assert (HiN : i < N) by lia.
  destruct (nth_error_Some_lt_length data i) as [s Hs]; [lia|].
  destruct (Hlab i s HiN Hs) as [t Ht].
  exists s, t. cbv zeta.
  assert (Hfs : nth_error (firstn N data) i = Some s)
    by (rewrite nth_error_firstn; destruct (Nat.ltb_spec i N); [exact Hs|lia]).
  destruct (nth_error_pairs strip_answer
              (fun x => relabel_digits (strip_answer x)) (firstn N data) i)
    as [HP0 HP1].
  fold (prompt_pair) in HP0, HP1. fold P in HP0, HP1.
  rewrite Hfs in HP0, HP1. cbn [option_map] in HP0, HP1.
  assert (Htok : nth_error toks i = Some t).
  { clear - HF Hfs Ht. revert i Hfs.
    induction HF as [|x y l l' Hxy HF IH]; intros [|i] Hfs; simpl in *;
      try discriminate.
    - inversion Hfs; subst. unfold ok in *. congruence.
    - now apply IH. }
  destruct (nth_error_pairs (fun x : Z => x) (fun x => x) toks i) as [HL0 _].
  fold L in HL0. rewrite Htok in HL0. cbn [option_map] in HL0.
  assert (Hrow0 : nth_error (input_ids batch) (2 * i)
                  = Some (pad_ids pad_token_id padding_left (seq_len encode P)
                                  (encode (strip_answer s)))).
  { unfold batch, tokenizer. cbn [input_ids].
    rewrite nth_error_map, HP0. reflexivity. }
  assert (Hrow1 : nth_error (input_ids batch) (2 * i + 1)
                  = Some (pad_ids pad_token_id padding_left (seq_len encode P)
                            (encode (relabel_digits (strip_answer s))))).
  { unfold batch, tokenizer. cbn [input_ids].
    rewrite nth_error_map, HP1. reflexivity. }
  assert (Hpos0 : nth_error (last_token_indices batch) (2 * i)
                  = Some (Z.of_nat (List.length (encode (strip_answer s))) - 1)%Z).
  { unfold batch. rewrite last_token_indices_tokenizer.
    rewrite nth_error_map, HP0. reflexivity. }
  assert (Hpos1 : nth_error (last_token_indices batch) (2 * i + 1)
                  = Some (Z.of_nat (List.length
                            (encode (relabel_digits (strip_answer s)))) - 1)%Z).
  { unfold batch. rewrite last_token_indices_tokenizer.
    rewrite nth_error_map, HP1. reflexivity. }
  rewrite !nth_error_doubled by exact Hi.
  rewrite (nth_of_nth_error _ _ _ _ Hrow0), (nth_of_nth_error _ _ _ _ Hrow1),
    (nth_of_nth_error _ _ _ _ Hpos0), (nth_of_nth_error _ _ _ _ Hpos1),
    (nth_of_nth_error _ _ _ _ HL0).
  rewrite Hrow0, Hrow1, HL0.
  repeat split; assumption || reflexivity.
Qed.

End ChangeBoxLabel.

(** ** Programs that draw random numbers *)

Lemma rand_bind_inv {A B} (m : Rand A) (k : A -> Rand B) (g g' : rng) (b : B) :
  rand_bind m k g = (inr b, g') ->
  exists a g1, m g = (inr a, g1) /\ k a g1 = (inr b, g').
Proof.
  unfold rand_bind. destruct (m g) as [[e|a] g1]; intro H.
  - discriminate.
  - now exists a, g1.
Qed.

Lemma lift_inv {A} (r : result A) (g g' : rng) (a : A) :
  lift r g = (inr a, g') -> r = inr a /\ g' = g.
Proof. unfold lift. intro H. inversion H. now split. Qed.

Lemma rret_inv {A} (x a : A) (g g' : rng) :
  rret x g = (inr a, g') -> a = x /\ g' = g.
Proof. unfold rret, ok. intro H. inversion H. now split. Qed.

(** Splitting a successful run into the runs of its steps. *)
Ltac run_inv H :=
  repeat match type of H with
  | rand_bind _ _ _ = (inr _, _) =>
      let a := fresh "v" in let g := fresh "g" in let H1 := fresh "R" in
      apply rand_bind_inv in H as (a & g & H1 & H);
      try (apply lift_inv in H1 as [H1 ->])
  end.

(** ** [box_index_aligner_examples] *)

Section Aligner.

Variable encode : string -> list Z.
Variables (ids : list (list Z)) (lti out : list Z).
Variables N k : nat.

Lemma aligned_rows_step (o : AlignerOutput) (n r : nat) (base src row : list Z)
    (bp ctf tok sp : Z) :
  aligned_rows ids lti out n o ->
  nth_error ids n = Some base ->
  nth_error lti n = Some bp ->
  nth_error out n = Some ctf ->
  nth_error ids r = Some src ->
  setitem src (-3) tok = ok row ->
  nth_error lti r = Some sp ->
  aligned_rows ids lti out (S n)
    {| all_base_input_ids := all_base_input_ids o ++ [base];
       all_base_input_last_pos := all_base_input_last_pos o ++ [bp];
       all_source_input_ids := all_source_input_ids o ++ [row];
       all_source_input_last_pos := all_source_input_last_pos o ++ [sp];
       all_ctf_output_ids := all_ctf_output_ids o ++ [ctf];
       all_intervention_ids := all_intervention_ids o ++ [0%Z];
       all_incorrect_output_ids := all_incorrect_output_ids o |}.
Proof.
  intros (L1 & L2 & L3 & L4 & L5 & L6 & Hrows) Hb Hbp Hc Hsrc Hset Hsp.
  unfold aligned_rows. cbn.
  rewrite !length_app, L1, L2, L3, L4, L5, L6. cbn.
  repeat (split; [lia|]).
  intros p Hp. destruct (Nat.eq_dec p n) as [->|Hne].
  - rewrite !nth_error_app2 by lia.
    rewrite L1, L2, L3, L4, L5, L6, Nat.sub_diag. cbn.
    rewrite Hb, Hbp, Hc. repeat (split; [reflexivity|]).
    exists r, src, tok, row. rewrite Hsp. auto.
  - rewrite !nth_error_app1 by lia. apply Hrows. lia.
Qed.

(** One pass of the inner loop either breaks, leaving the output as it
    was, or appends entry [i + j] to the six lists. *)
Lemma box_index_aligner_inner_inv (i j : nat) (o o' : AlignerOutput)
    (fl : flow) (g g' : rng) :
  box_index_aligner_inner encode ids lti out N k i j o g = (inr (fl, o'), g') ->
  all_incorrect_output_ids o' = all_incorrect_output_ids o
  /\ ((N <= i + j /\ fl = Break /\ o' = o)
      \/ (i + j < N /\ fl = Continue
          /\ (aligned_rows ids lti out (i + j) o ->
              aligned_rows ids lti out (S (i + j)) o'))).
Proof.
  unfold box_index_aligner_inner.
  destruct (Nat.leb_spec N (i + j)) as [Hge|Hlt]; intro H.
  - apply rret_inv in H as [H ->]. inversion H; subst. split; [reflexivity|].
    left. auto.
  - run_inv H. apply rret_inv in H as [H ->]. inversion H; subst. clear H.
    cbn [all_incorrect_output_ids]. split; [reflexivity|].
    right. repeat (split; [assumption || reflexivity|]).
    intro Hal.
    apply getnat_inv in R, R0, R1, R3, R7.
    eapply aligned_rows_step; eauto.
Qed.

(** The inner loop, started at [j0] with [i + j0] entries present. *)
Lemma box_index_aligner_inner_loop (i len : nat) :
  forall (j0 : nat) (o o' : AlignerOutput) (g g' : rng),
    rfor_break (box_index_aligner_inner encode ids lti out N k i)
               (seq j0 len) o g = (inr o', g') ->
    i + j0 <= N ->
    all_incorrect_output_ids o' = all_incorrect_output_ids o
    /\ (aligned_rows ids lti out (i + j0) o ->
        aligned_rows ids lti out (Nat.min (i + j0 + len) N) o').
Proof.
  induction len as [|len IH]; intros j0 o o' g g' H Hle.
  - cbn in H. apply rret_inv in H as [-> _]. split; [reflexivity|].
    now replace (Nat.min (i + j0 + 0) N) with (i + j0) by lia.
  - cbn [seq rfor_break] in H. run_inv H.
    destruct v as [fl o1].
    apply box_index_aligner_inner_inv in R
      as [Hinc [(Hge & -> & ->)|(Hlt & -> & Hstep)]].
    + apply rret_inv in H as [-> _]. split; [reflexivity|].
      now replace (Nat.min (i + j0 + S len) N) with (i + j0) by lia.
    + apply IH in H as [Hinc' Hrest]; [|lia]. split; [congruence|].
      intro Hal.
      replace (Nat.min (i + j0 + S len) N)
        with (Nat.min (i + S j0 + len) N) by lia.
      apply Hrest. replace (i + S j0) with (S (i + j0)) by lia. auto.
Qed.

(** The outer loop, started at the [t0]-th value of its range. *)
Lemma box_index_aligner_outer_loop (c : nat) :
  forall (t0 : nat) (o o' : AlignerOutput) (g g' : rng),
    rfor (fun i acc =>
            rfor_break (box_index_aligner_inner encode ids lti out N k i)
                       (seq 0 k) acc)
         (map (fun t => 0 + t * k) (seq t0 c)) o g = (inr o', g') ->
    (forall t, t0 <= t < t0 + c -> t * k < N) ->
    all_incorrect_output_ids o' = all_incorrect_output_ids o
    /\ (aligned_rows ids lti out (Nat.min (t0 * k) N) o ->
        aligned_rows ids lti out (Nat.min ((t0 + c) * k) N) o').
Proof.
  induction c as [|c IH]; intros t0 o o' g g' H Hrange.
  - cbn in H. apply rret_inv in H as [-> _]. split; [reflexivity|].
    now rewrite Nat.add_0_r.
  - cbn [seq map rfor] in H. run_inv H.
    assert (Hlt : t0 * k < N) by (apply Hrange; lia).
    apply box_index_aligner_inner_loop in R as [Hinc Hin]; [|lia].
    apply IH in H as [Hinc' Hrest]; [|intros; apply Hrange; lia].
    split; [congruence|]. intro Hal.
    replace ((t0 + S c) * k) with ((S t0 + c) * k) by lia.
    apply Hrest.
    replace (S t0 * k) with (0 + t0 * k + 0 + k) by lia.
    apply Hin.
    replace (0 + t0 * k + 0) with (Nat.min (t0 * k) N) by lia.
    exact Hal.
Qed.

Lemma aligned_rows_empty : aligned_rows ids lti out 0 empty_output.
Proof.
  unfold aligned_rows, empty_output. cbn.
  repeat (split; [reflexivity|]). intros p Hp. lia.
Qed.

Lemma box_index_aligner_loops_inv (o : AlignerOutput) (g g' : rng) :
  box_index_aligner_loops encode ids lti out N k g = (inr o, g') ->
  aligned_rows ids lti out N o /\ all_incorrect_output_ids o = [].
Proof.
  unfold box_index_aligner_loops. destruct k as [|k'] eqn:Hk.
  - intro H. apply lift_inv in H as [H _]. discriminate.
  - rewrite <- Hk. intro H. unfold py_range in H.
    assert (Hpos : 0 < k) by lia.
    set (c := (N - 0 + k - 1) / k) in H.
    assert (Hc1 : k * c <= N - 0 + k - 1) by (apply Nat.Div0.mul_div_le).
    assert (Hc2 : N - 0 + k - 1 < k * S c)
      by (apply Nat.mul_succ_div_gt; lia).
    apply box_index_aligner_outer_loop in H as [Hinc Hal].
    + split; [|exact Hinc].
      assert (E : Nat.min ((0 + c) * k) N = N) by (apply Nat.min_r; nia).
      rewrite E in Hal. apply Hal. cbn. apply aligned_rows_empty.
    + intros t Ht. nia.
Qed.

End Aligner.

(** ** The aligners' parallel lists *)

Section AlignedOutputs.

Variable encode : string -> list Z.
Variable pad_token_id : Z.
Variable padding_left : bool.

Lemma change_query_box_pos_loop_bounds (ids : list (list Z)) (lti out : list Z)
    (xs : list nat) :
  forall st st',
    for_each (change_query_box_pos_body ids lti out) xs st = ok st' ->
    forall x, In x xs ->
      x + 1 < List.length ids /\ x + 1 < List.length lti /\ x < List.length out.
Proof.
  induction xs as [|y xs IH]; intros st st' H x Hin; [destruct Hin|].
  cbn [for_each] in H.
  destruct (change_query_box_pos_body ids lti out y st) as [e|st1] eqn:Hbody;
    [discriminate|].
  cbn [rbind] in H. destruct Hin as [->|Hin]; [|eapply IH; eauto].
  clear H IH. unfold change_query_box_pos_body in Hbody.
  destruct st as [[[[b bp] s] sp] c].
  destruct (getnat ids x) eqn:E1; [discriminate|]. cbn [rbind] in Hbody.
  destruct (getnat lti x) eqn:E2; [discriminate|]. cbn [rbind] in Hbody.
  destruct (getnat ids (x + 1)) eqn:E3; [discriminate|]. cbn [rbind] in Hbody.
  destruct (getnat lti (x + 1)) eqn:E4; [discriminate|]. cbn [rbind] in Hbody.
  destruct (getnat out x) eqn:E5; [discriminate|].
  apply getnat_inv in E3, E4, E5.
  repeat split; apply nth_error_Some; congruence.
Qed.

Lemma change_query_box_pos_inv (data : list string) (N : nat) (r : aligned) :
  change_query_box_pos encode pad_token_id padding_left data N = ok r ->
  exists ids lti out,
    change_box_label encode pad_token_id padding_left data N = ok (ids, lti, out)
    /\ paired_rows ids lti out ((N + 1) / 2) r.
Proof.
  unfold change_query_box_pos.
  destruct (change_box_label encode pad_token_id padding_left data N)
    as [e|[[ids lti] out]]; [discriminate|].
  cbn [rbind]. intro H. exists ids, lti, out. split; [reflexivity|].
  pose proof (change_query_box_pos_loop_bounds _ _ _ _ _ _ H) as Hb.
  rewrite (change_query_box_pos_loop ids lti out _ [] [] [] [] [] Hb) in H.
  unfold ok in H. inversion H; subst; clear H. cbn [app].
  unfold py_range in *. rewrite Nat.sub_0_r in *.
  replace (N + 2 - 1) with (N + 1) in * by lia.
  set (n := (N + 1) / 2) in *.
  unfold paired_rows. rewrite !length_map, !length_seq.
  repeat (split; [reflexivity|]).
  intros i Hi.
  assert (Hx : In (0 + i * 2) (map (fun t => 0 + t * 2) (seq 0 n)))
    by (apply in_map_iff; exists i; split; [reflexivity|apply in_seq; lia]).
  destruct (Hb _ Hx) as (B1 & B2 & B3).
  rewrite !map_map.
  rewrite !(nth_error_map _ i (seq 0 n)), nth_error_seq.
  destruct (Nat.ltb_spec i n); [|lia]. cbn [option_map Nat.add].
  replace (i * 2) with (2 * i) in * by lia.
  repeat split; symmetry; apply nth_error_nth'; lia.
Qed.

(** C2 (as amended). Whenever [box_index_aligner_examples] returns, its
    base ids, base positions, source ids, source positions, counterfactual
    labels and intervention ids have [num_samples] entries each, entry [p]
    of the base lists and of the labels being row [p] of what the sampler
    returned and entry [p] of the two source lists coming from one sampled
    row, while the seventh list, [all_incorrect_output_ids], is empty.
    Whenever [change_query_box_pos] returns, its five lists have
    [(num_samples + 1) / 2] entries each and entry [i] of all five comes
    from rows [2 * i] and [2 * i + 1] of [change_box_label]. *)
Theorem aligner_sequences_aligned (data : list string) (N k : nat)
    (architecture : string) :
  (forall g o g',
      box_index_aligner_examples encode pad_token_id padding_left data N k
        architecture g = (ok o, g') ->
      exists ids lti out,
        entity_tracking_example_sampler encode pad_token_id padding_left
          data N architecture = ok (ids, lti, out)
        /\ aligned_rows ids lti out N o
        /\ all_incorrect_output_ids o = [])
  /\ (forall r,
        change_query_box_pos encode pad_token_id padding_left data N = ok r ->
        exists ids lti out,
          change_box_label encode pad_token_id padding_left data N
          = ok (ids, lti, out)
          /\ paired_rows ids lti out ((N + 1) / 2) r).
Proof.
  split.
  - intros g o g' H. unfold box_index_aligner_examples in H.
    apply rand_bind_inv in H as (sampled & g1 & Hs & H).
    apply lift_inv in Hs as [Hs ->].
    destruct sampled as [[ids lti] out].
    exists ids, lti, out. split; [exact Hs|].
    now apply box_index_aligner_loops_inv in H.
  - apply change_query_box_pos_inv.
Qed.

End AlignedOutputs.

(** ** The top-k components *)

Lemma in_firstn_in {A} (k : nat) (l : list A) (x : A) :
  In x (firstn k l) -> In x l.
Proof.
  intro H. rewrite <- (firstn_skipn k l). apply in_or_app. now left.
Qed.

Lemma in_skipn_in {A} (k : nat) (l : list A) (x : A) :
  In x (skipn k l) -> In x l.
Proof.
  intro H. rewrite <- (firstn_skipn k l). apply in_or_app. now right.
Qed.

(** Integer division and remainder by the column count address the entry of
    the grid that sits at a flattened index. *)
Lemma grid_entry {A} (d : A) (cols : nat) (grid : list (list A)) :
  0 < cols ->
  Forall (fun row => List.length row = cols) grid ->
  forall t, t < List.length (List.concat grid) ->
    nth (t mod cols) (nth (t / cols) grid []) d = nth t (List.concat grid) d.
Proof.
  intros Hc Hrect. induction Hrect as [|row grid Hrow Hrect IH]; intros t Ht.
  - simpl in Ht. lia.
  - simpl List.concat in *. rewrite length_app in Ht.
    destruct (Nat.lt_ge_cases t cols) as [Hlt|Hge].
    + rewrite Nat.div_small, Nat.mod_small by lia. simpl.
      now rewrite app_nth1 by lia.
    + rewrite app_nth2 by lia. rewrite Hrow.
      replace t with ((t - cols) + 1 * cols) at 1 2 by lia.
      rewrite Nat.div_add, Nat.Div0.mod_add by lia.
      rewrite Nat.add_1_r. simpl nth at 2. apply IH. lia.
Qed.

Lemma length_concat_grid {A} (cols : nat) (grid : list (list A)) :
  Forall (fun row => List.length row = cols) grid ->
  List.length (List.concat grid) = List.length grid * cols.
Proof.
  induction 1 as [|row grid Hrow Hrect IH]; [reflexivity|].
  simpl. rewrite length_app, IH, Hrow. reflexivity.
Qed.

Lemma stack_rows_cols (f g : nat -> nat) (l : list nat) :
  map (fun rc => [fst rc; snd rc]) (combine (map f l) (map g l))
  = map (fun t => [f t; g t]) l.
Proof. induction l as [|x l IH]; simpl; [reflexivity|]. now rewrite IH. Qed.

(** A flattened index is determined by its row and its column. *)
Lemma row_col_injective (cols a b : nat) :
  [a / cols; a mod cols] = [b / cols; b mod cols] -> a = b.
Proof.
  intro H. injection H as Hd Hm.
  rewrite (Nat.div_mod_eq a cols), (Nat.div_mod_eq b cols). now rewrite Hd, Hm.
Qed.

Lemma row_col_of_entry (cols r c : nat) :
  c < cols -> [(r * cols + c) / cols; (r * cols + c) mod cols] = [r; c].
Proof.
  intro Hc.
  rewrite (Nat.add_comm (r * cols) c), Nat.div_add, Nat.Div0.mod_add by lia.
  rewrite Nat.div_small, Nat.mod_small by exact Hc. reflexivity.
Qed.

Lemma NoDup_map_injective {A B} (f : A -> B) (l : list A) :
  (forall x y, f x = f y -> x = y) -> NoDup l -> NoDup (map f l).
Proof.
  intros Hinj. induction 1 as [|x l Hx Hnd IH]; simpl; constructor; [|exact IH].
  intro Hin. apply in_map_iff in Hin as (y & Hy & Hin).
  apply Hinj in Hy. now subst y.
Qed.

(** What the contract of [torch.topk] leaves of the choice on the entries
    1, 5, 9, 2: the positions of 9 and of 5, in this order. *)
Lemma topk_of_distinct_entries (r : result (list nat)) :
  topk_contract
    [Fixtures.one32; Fixtures.five32; Fixtures.nine32; Fixtures.two32] 2 true r ->
  r = ok [2; 1].
Proof.
  intros (idxs & -> & Hlen & Hnd & Hlt & Hsorted & Hbest).
  destruct idxs as [|a [|b [|c idxs]]]; try discriminate Hlen.
  f_equal.
  assert (Ha : a < 4) by (inversion Hlt; assumption).
  assert (Hb : b < 4)
    by (inversion Hlt as [|? ? _ Hlt']; inversion Hlt'; assumption).
  assert (Hab : a <> b).
  { inversion Hnd as [|? ? Hnin _]. intros ->. apply Hnin. now left. }
  pose proof (Hsorted 0 1 ltac:(lia)) as Hs. cbn [nth] in Hs.
  assert (Hout : forall i j, (i = a \/ i = b) -> j < 4 -> j <> a -> j <> b ->
            ranks_strictly_before true
              (nth j [Fixtures.one32; Fixtures.five32; Fixtures.nine32;
                      Fixtures.two32] (S754_zero false))
              (nth i [Fixtures.one32; Fixtures.five32; Fixtures.nine32;
                      Fixtures.two32] (S754_zero false)) = false).
  { intros i j Hi Hj Hja Hjb. apply Hbest.
    - simpl. intuition.
    - exact Hj.
    - simpl. intuition. }
  clear Hbest Hsorted Hlt Hnd Hlen.
  destruct a as [|[|[|[|a]]]]; try lia;
    destruct b as [|[|[|[|b]]]]; try lia; try congruence;
    try reflexivity; exfalso;
    first
      [ discriminate Hs
      | discriminate (Hout 0 1 ltac:(auto) ltac:(lia) ltac:(lia) ltac:(lia))
      | discriminate (Hout 0 2 ltac:(auto) ltac:(lia) ltac:(lia) ltac:(lia))
      | discriminate (Hout 1 2 ltac:(auto) ltac:(lia) ltac:(lia) ltac:(lia))
      | discriminate (Hout 3 1 ltac:(auto) ltac:(lia) ltac:(lia) ltac:(lia))
      | discriminate (Hout 3 2 ltac:(auto) ltac:(lia) ltac:(lia) ltac:(lia)) ].
Qed.

(** C4 (as amended). On a rectangular grid with [cols] columns and at least
    [k] entries, and with a top-k selection that honours the contract of
    [torch.topk] on this call, [compute_topk_components] returns [k]
    distinct pairs [[t / cols; t mod cols]], one for each flattened index
    [t] selected; each pair lies inside the grid and addresses the entry
    that sits at [t]; the entries addressed come in rank order, larger
    first (smaller first when [largest] is false); and no entry of the grid
    that is left out ranks strictly before an entry returned.  The order
    among equal entries is the library's.  On the grid [[1,5],[9,2]] with
    [k = 2] and [largest = True] the result is [[1,0],[0,1]] for every such
    selection. *)
Theorem compute_topk_components_spec :
  (forall (topk : list float -> nat -> bool -> result (list nat))
          (grid : list (list float)) (cols k : nat) (largest : bool),
      0 < cols ->
      Forall (fun row => List.length row = cols) grid ->
      k <= List.length (List.concat grid) ->
      topk_contract (List.concat grid) k largest
        (topk (List.concat grid) k largest) ->
      exists idxs,
        compute_topk_components topk grid k largest
        = ok (map (fun t => [t / cols; t mod cols]) idxs)
        /\ List.length idxs = k
        /\ NoDup (map (fun t => [t / cols; t mod cols]) idxs)
        /\ Forall (fun t =>
                     t / cols < List.length grid
                     /\ t mod cols < cols
                     /\ score_at grid (t / cols) (t mod cols)
                        = nth t (List.concat grid) (S754_zero false)) idxs
        /\ (forall p q, p < q < k ->
              ranks_strictly_before largest
                (score_at grid (nth q idxs 0 / cols) (nth q idxs 0 mod cols))
                (score_at grid (nth p idxs 0 / cols) (nth p idxs 0 mod cols))
              = false)
        /\ (forall t r c,
              In t idxs -> r < List.length grid -> c < cols ->
              ~ In [r; c] (map (fun t => [t / cols; t mod cols]) idxs) ->
              ranks_strictly_before largest
                (score_at grid r c)
                (score_at grid (t / cols) (t mod cols)) = false))
  /\ (forall topk : list float -> nat -> bool -> result (list nat),
        topk_contract
          [Fixtures.one32; Fixtures.five32; Fixtures.nine32; Fixtures.two32]
          2 true
          (topk [Fixtures.one32; Fixtures.five32; Fixtures.nine32;
                 Fixtures.two32] 2 true) ->
        compute_topk_components topk
          [[Fixtures.one32; Fixtures.five32];
           [Fixtures.nine32; Fixtures.two32]] 2 true
        = ok [[1; 0]; [0; 1]]).
Proof.
  split.
  - intros topk grid cols k largest Hc Hrect Hk
      (idxs & Htop & Hlen & Hnd & Hlt & Hsorted & Hbest).
    pose proof (length_concat_grid cols grid Hrect) as Hsize.
    assert (Hentry : forall t, t < List.length (List.concat grid) ->
              t / cols < List.length grid
              /\ t mod cols < cols
              /\ score_at grid (t / cols) (t mod cols)
                 = nth t (List.concat grid) (S754_zero false)).
    { intros t Ht. split.
      - apply Nat.Div0.div_lt_upper_bound. lia.
      - split; [apply Nat.mod_upper_bound; lia|].
        unfold score_at. now apply grid_entry. }
    rewrite Forall_forall in Hlt.
    assert (Hnth : forall p, p < k ->
              nth p idxs 0 < List.length (List.concat grid)).
    { intros p Hp. apply Hlt, nth_In. lia. }
    exists idxs. split.
    { unfold compute_topk_components. rewrite Htop. unfold ok. cbn [rbind].
      rewrite stack_rows_cols. f_equal.
      destruct grid as [|row grid'].
      - destruct idxs as [|t idxs]; [reflexivity|].
        specialize (Hlt t (or_introl eq_refl)). simpl in Hlt. lia.
      - inversion Hrect; subst. reflexivity. }
    split; [exact Hlen|]. split.
    { apply NoDup_map_injective; [|exact Hnd].
      intros a b. apply row_col_injective. }
    split.
    { apply Forall_forall. intros t Ht. apply Hentry, Hlt, Ht. }
    split.
    { intros p q Hpq.
      destruct (Hentry _ (Hnth p ltac:(lia))) as (_ & _ & ->).
      destruct (Hentry _ (Hnth q ltac:(lia))) as (_ & _ & ->).
      now apply Hsorted. }
    intros t r c Ht Hr Hcc Hnot.
    assert (Hj : r * cols + c < List.length (List.concat grid)) by nia.
    destruct (Hentry _ (Hlt t Ht)) as (_ & _ & ->).
    destruct (Hentry _ Hj) as (_ & _ & Hrc).
    assert (Hpair := row_col_of_entry cols r c Hcc).
    injection Hpair as Hd Hm. rewrite Hd, Hm in Hrc. rewrite Hrc.
    apply Hbest; [exact Ht|exact Hj|].
    intro Hin. apply Hnot. apply in_map_iff.
    exists (r * cols + c). split; [|exact Hin].
    now apply row_col_of_entry.
  - intros topk H. apply topk_of_distinct_entries in H.
    unfold compute_topk_components. cbn [List.concat app]. rewrite H.
    reflexivity.
Qed.

(** Checking the contract of [torch.topk] on one call that returns the two
    positions [idxs]. *)
Ltac check_topk_call idxs :=
  exists idxs; split; [reflexivity|]; split; [reflexivity|]; split;
  [repeat constructor; simpl; intuition discriminate|];
  split; [repeat constructor|]; split;
  [ intros p q Hpq; assert (p = 0) by lia; assert (q = 1) by lia; subst;
    reflexivity
  | intros i j Hi Hj Hnot; simpl in Hj, Hnot;
    do 7 (try destruct j as [|j]); try lia;
    try (exfalso; apply Hnot; auto; fail);
    destruct Hi as [<-|[<-|[]]]; reflexivity ].

Lemma compute_topk_components_spec_witness :
  0 < 2
  /\ Forall (fun row => List.length row = 2)
       [[Fixtures.one32; Fixtures.five32]; [Fixtures.nine32; Fixtures.two32]]
  /\ 2 <= List.length
            (List.concat [[Fixtures.one32; Fixtures.five32];
                          [Fixtures.nine32; Fixtures.two32]])
  /\ topk_contract
       (List.concat [[Fixtures.one32; Fixtures.five32];
                     [Fixtures.nine32; Fixtures.two32]]) 2 true
       (Fixtures.topk_keeping_later
          (List.concat [[Fixtures.one32; Fixtures.five32];
                        [Fixtures.nine32; Fixtures.two32]]) 2 true)
  /\ exists idxs,
       compute_topk_components Fixtures.topk_keeping_later
         [[Fixtures.one32; Fixtures.five32]; [Fixtures.nine32; Fixtures.two32]]
         2 true
       = ok (map (fun t => [t / 2; t mod 2]) idxs)
       /\ List.length idxs = 2.
Proof.
  assert (H0 : 0 < 2) by lia.
  assert (H1 : Forall (fun row => List.length row = 2)
                 [[Fixtures.one32; Fixtures.five32];
                  [Fixtures.nine32; Fixtures.two32]])
    by (repeat constructor).
  assert (H2 : 2 <= List.length
                      (List.concat [[Fixtures.one32; Fixtures.five32];
                                    [Fixtures.nine32; Fixtures.two32]]))
    by (simpl; lia).
  assert (H3 : topk_contract
                 (List.concat [[Fixtures.one32; Fixtures.five32];
                               [Fixtures.nine32; Fixtures.two32]]) 2 true
                 (Fixtures.topk_keeping_later
                    (List.concat [[Fixtures.one32; Fixtures.five32];
                                  [Fixtures.nine32; Fixtures.two32]]) 2 true)).
  { check_topk_call [2; 1]. }
  repeat (split; [assumption|]).
  destruct (proj1 compute_topk_components_spec Fixtures.topk_keeping_later
              [[Fixtures.one32; Fixtures.five32];
               [Fixtures.nine32; Fixtures.two32]] 2 2 true H0 H1 H2 H3)
    as (idxs & Heq & Hlen & _).
  exists idxs. split; assumption.
Defined.

(** On a grid of four equal entries a top-k selection that honours the
    contract of [torch.topk] may keep the two last ones, and
    [compute_topk_components] then returns the positions of the second row,
    not those of the two lowest flattened indices; likewise, of three equal
    largest entries it may return the second and the third. *)
Lemma compute_topk_components_tie_order :
  (topk_contract
     (List.concat [[Fixtures.five32; Fixtures.five32];
                   [Fixtures.five32; Fixtures.five32]]) 2 true
     (Fixtures.topk_keeping_later
        (List.concat [[Fixtures.five32; Fixtures.five32];
                      [Fixtures.five32; Fixtures.five32]]) 2 true)
   /\ compute_topk_components Fixtures.topk_keeping_later
        [[Fixtures.five32; Fixtures.five32];
         [Fixtures.five32; Fixtures.five32]] 2 true
      = ok [[1; 0]; [1; 1]])
  /\ (topk_contract
        (List.concat [[Fixtures.three32; Fixtures.one32; Fixtures.three32];
                      [Fixtures.one32; Fixtures.three32; Fixtures.one32]])
        2 true
        (Fixtures.topk_keeping_later
           (List.concat [[Fixtures.three32; Fixtures.one32; Fixtures.three32];
                         [Fixtures.one32; Fixtures.three32; Fixtures.one32]])
           2 true)
      /\ compute_topk_components Fixtures.topk_keeping_later
           [[Fixtures.three32; Fixtures.one32; Fixtures.three32];
            [Fixtures.one32; Fixtures.three32; Fixtures.one32]] 2 true
         = ok [[0; 2]; [1; 1]]).
Proof.
  split; (split; [|reflexivity]).
  - check_topk_call [2; 3].
  - check_topk_call [2; 4].
Qed.

(** ** The patching metric *)

Section PerfMetricFacts.

Variables prec emax : Z.
Variable log_softmax : list float -> list float.

(** C3. Run with the global names its module binds, [perf_metric] never
    returns a value: it raises whatever the computation of the ratio
    raises, and [NameError] for [batch_size] once the ratio is computed. *)
Theorem perf_metric_never_returns
    (patched_logits : list (list (list float))) (answer : Z)
    (base_logits source_logits : list (list (list float)))
    (base_last_token_pos source_last_token_pos : Z) :
  perf_metric prec emax log_softmax analysis_utils_globals patched_logits
    answer base_logits source_logits base_last_token_pos
    source_last_token_pos
  = (let* _ := perf_score prec emax log_softmax patched_logits answer
                 base_logits source_logits base_last_token_pos
                 source_last_token_pos in
     raise (NameError "batch_size"))
  /\ forall value,
       perf_metric prec emax log_softmax analysis_utils_globals
         patched_logits answer base_logits source_logits
         base_last_token_pos source_last_token_pos <> ok value.
Proof.
  assert (E : perf_metric prec emax log_softmax analysis_utils_globals
                patched_logits answer base_logits source_logits
                base_last_token_pos source_last_token_pos
              = (let* _ := perf_score prec emax log_softmax patched_logits
                             answer base_logits source_logits
                             base_last_token_pos source_last_token_pos in
                 raise (NameError "batch_size"))).
  { unfold perf_metric. destruct (perf_score _ _ _ _ _ _ _ _ _); reflexivity. }
  split; [exact E|].
  intros value. rewrite E.
  destruct (perf_score _ _ _ _ _ _ _ _ _); discriminate.
Qed.

(** C7 (as amended). When the denominator is a zero, the ratio is computed
    all the same, by plain floating-point division and with no test of the
    denominator: no fault is raised, and the score is NaN when the
    numerator is a zero or NaN and an infinity otherwise. *)
Theorem zero_denominator_score
    (patched_logits : list (list (list float))) (answer : Z)
    (base_logits source_logits : list (list (list float)))
    (base_last_token_pos source_last_token_pos : Z)
    (numerator : float) (sign : bool) :
  perf_terms prec emax log_softmax patched_logits answer base_logits
    source_logits base_last_token_pos source_last_token_pos
  = ok (numerator, S754_zero sign) ->
  exists score,
    perf_score prec emax log_softmax patched_logits answer base_logits
      source_logits base_last_token_pos source_last_token_pos = ok score
    /\ score = SFadd prec emax (S754_zero false)
                 (SFdiv prec emax numerator (S754_zero sign))
    /\ match numerator with
       | S754_nan | S754_zero _ => score = S754_nan
       | S754_infinity s | S754_finite s _ _ =>
           score = S754_infinity (xorb s sign)
       end.
Proof.
  intro H. unfold perf_score. rewrite H. unfold ok. cbn [rbind].
  eexists. split; [reflexivity|]. split; [reflexivity|].
  destruct numerator; reflexivity.
Qed.

End PerfMetricFacts.

Lemma zero_denominator_score_witness :
  perf_terms Fixtures.prec32 Fixtures.emax32 Fixtures.given_log_probs
    (Fixtures.logits_with Fixtures.one32) 0
    (Fixtures.logits_with (S754_zero false))
    (Fixtures.logits_with (S754_zero false)) 0 0
  = ok (Fixtures.one32, S754_zero false)
  /\ exists score,
       perf_score Fixtures.prec32 Fixtures.emax32 Fixtures.given_log_probs
         (Fixtures.logits_with Fixtures.one32) 0
         (Fixtures.logits_with (S754_zero false))
         (Fixtures.logits_with (S754_zero false)) 0 0 = ok score
       /\ score = S754_infinity false.
Proof.
  split; [reflexivity|].
  destruct (zero_denominator_score Fixtures.prec32 Fixtures.emax32
              Fixtures.given_log_probs (Fixtures.logits_with Fixtures.one32) 0
              (Fixtures.logits_with (S754_zero false))
              (Fixtures.logits_with (S754_zero false)) 0 0
              Fixtures.one32 false eq_refl) as (score & Hs & _ & Hinf).
  exists score. split; [exact Hs|exact Hinf].
Defined.

(** With equal clean and corrupted log-probabilities and a non-zero
    numerator, the score is an infinity, not NaN; the call ends in
    [NameError], and with [batch_size] bound it returns that infinity. *)
Lemma perf_metric_zero_denominator_unflagged :
  perf_terms Fixtures.prec32 Fixtures.emax32 Fixtures.given_log_probs
    (Fixtures.logits_with Fixtures.one32) 0
    (Fixtures.logits_with (S754_zero false))
    (Fixtures.logits_with (S754_zero false)) 0 0
  = ok (Fixtures.one32, S754_zero false)
  /\ perf_score Fixtures.prec32 Fixtures.emax32 Fixtures.given_log_probs
       (Fixtures.logits_with Fixtures.one32) 0
       (Fixtures.logits_with (S754_zero false))
       (Fixtures.logits_with (S754_zero false)) 0 0
     = ok (S754_infinity false)
  /\ perf_metric Fixtures.prec32 Fixtures.emax32 Fixtures.given_log_probs
       analysis_utils_globals
       (Fixtures.logits_with Fixtures.one32) 0
       (Fixtures.logits_with (S754_zero false))
       (Fixtures.logits_with (S754_zero false)) 0 0
     = raise (NameError "batch_size")
  /\ perf_metric Fixtures.prec32 Fixtures.emax32 Fixtures.given_log_probs
       (("batch_size", PyNumber Fixtures.one32) :: analysis_utils_globals)
       (Fixtures.logits_with Fixtures.one32) 0
       (Fixtures.logits_with (S754_zero false))
       (Fixtures.logits_with (S754_zero false)) 0 0
     = ok (S754_infinity false)
  /\ S754_infinity false <> S754_nan.
Proof. repeat split; try reflexivity. discriminate. Qed.

(** ** The query-label lookup *)

Lemma getitem_raises {A} (l : list A) (i : Z) (e : pyerr) :
  getitem l i = raise e -> e = IndexError.
Proof.
  unfold getitem, raise, ok.
  destruct ((_ <? 0)%Z || _)%bool; [intro H; now inversion H|].
  destruct (nth_error l _); intro H; now inversion H.
Qed.

(** The test against -1 after the base lookup never fires: the lookup yields
    an index of a segment or raises [IndexError]. *)
Lemma base_query_box_pos_raises (base_prompt : string) (e : pyerr) :
  base_query_box_pos base_prompt = raise e -> e = IndexError.
Proof.
  unfold base_query_box_pos.
  destruct (getitem (split ". " base_prompt) (-1)) as [e1|q] eqn:E1;
    cbn [rbind]; [intro H; inversion H; subst; eapply getitem_raises; eauto|].
  destruct (getitem (split " " q) 1) as [e2|label] eqn:E2;
    cbn [rbind]; [intro H; inversion H; subst; eapply getitem_raises; eauto|].
  destruct (getitem (split ". " q) 0) as [e3|scanned] eqn:E3;
    cbn [rbind]; [intro H; inversion H; subst; eapply getitem_raises; eauto|].
  unfold first_matching_segment.
  destruct (getitem (matching_indices label (split ", " scanned)) 0)
    as [e4|pos] eqn:E4;
    cbn [rbind]; [intro H; inversion H; subst; eapply getitem_raises; eauto|].
  destruct (Z.eqb_spec (Z.of_nat pos) (-1)); [lia|]. discriminate.
Qed.

Lemma prefix_spec (a b : string) :
  prefix a b = true <-> exists after, b = (a ++ after)%string.
Proof.
  revert b. induction a as [|c a IH]; intro b.
  - split; [intros _; now exists b|intros _; destruct b; reflexivity].
  - destruct b as [|d b]; simpl.
    + split; [discriminate|]. intros [after H]. discriminate.
    + destruct (ascii_dec c d) as [->|Hne].
      * rewrite IH. split; intros [after H]; exists after.
        -- now rewrite H.
        -- now inversion H.
      * split; [discriminate|]. intros [after H]. inversion H. congruence.
Qed.

Lemma contains_spec (sub s : string) :
  contains sub s = true <-> is_substring sub s.
Proof.
  unfold is_substring. induction s as [|c s IH].
  - cbn [contains]. rewrite orb_false_r, prefix_spec. split.
    + intros [after H]. now exists EmptyString, after.
    + intros (before & after & H). destruct before; simpl in H.
      * now exists after.
      * discriminate.
  - cbn [contains]. rewrite orb_true_iff, prefix_spec, IH. split.
    + intros [[after H]|(before & after & H)].
      * now exists EmptyString, after.
      * exists (String c before), after. simpl. now rewrite H.
    + intros (before & after & H). destruct before as [|d before]; simpl in H.
      * left. now exists after.
      * right. inversion H. now exists before, after.
Qed.

Lemma contains_false (sub s : string) :
  contains sub s = false <-> ~ is_substring sub s.
Proof.
  rewrite <- contains_spec. destruct (contains sub s); split; intro H;
    congruence || (exfalso; now apply H).
Qed.

Lemma getitem_head {A} (l : list A) :
  getitem l 0 = match l with [] => raise IndexError | x :: _ => ok x end.
Proof. destruct l as [|x l]; [reflexivity|]. unfold getitem. simpl. reflexivity. Qed.

(** The head of the comprehension is the least matching index. *)
Lemma matching_from_head (label : string) (segments : list string) :
  forall start,
    match matching_from label start segments with
    | [] => Forall (fun seg => contains label seg = false) segments
    | i :: _ =>
        start <= i
        /\ (exists seg, nth_error segments (i - start) = Some seg
                        /\ contains label seg = true)
        /\ (forall q seg, q < i - start -> nth_error segments q = Some seg ->
                          contains label seg = false)
    end.
Proof.
  induction segments as [|segment rest IH]; intro start; simpl; [constructor|].
  destruct (contains label segment) eqn:E.
  - split; [lia|]. rewrite Nat.sub_diag. split.
    + now exists segment.
    + intros q seg Hq. lia.
  - specialize (IH (S start)).
    destruct (matching_from label (S start) rest) as [|i l].
    + now constructor.
    + destruct IH as (Hle & (seg & Hnth & Hc) & Hleast).
      split; [lia|]. replace (i - start) with (S (i - S start)) by lia.
      split; [now exists seg|].
      intros [|q] seg' Hq Hs; simpl in Hs.
      * now inversion Hs; subst.
      * eapply Hleast; [|exact Hs]. lia.
Qed.

Lemma source_query_box_pos_raises (source_prompt : string) (e : pyerr) :
  source_query_box_pos source_prompt = raise e -> e = IndexError.
Proof.
  unfold source_query_box_pos, first_matching_segment.
  destruct (getitem (split ". " source_prompt) (-1)) as [e1|q] eqn:E1;
    cbn [rbind]; [intro H; inversion H; subst; eapply getitem_raises; eauto|].
  destruct (getitem (split " " q) 1) as [e2|label] eqn:E2;
    cbn [rbind]; [intro H; inversion H; subst; eapply getitem_raises; eauto|].
  destruct (getitem (split ". " source_prompt) 0) as [e3|scanned] eqn:E3;
    cbn [rbind]; [intro H; inversion H; subst; eapply getitem_raises; eauto|].
  apply getitem_raises.
Qed.

Lemma random_choice_cases {A} (l : list A) (g : rng) :
  (exists g', random_choice l g = (raise IndexError, g'))
  \/ (exists x g', random_choice l g = (ok x, g') /\ In x l).
Proof.
  destruct l as [|y l]; [left; now exists g|].
  unfold random_choice, rand_bind, randbelow, lift, getnat, ok.
  set (j := draws g (cursor g) mod List.length (y :: l)).
  destruct (nth_error (y :: l) j) as [x|] eqn:E.
  - right. exists x. eexists. split; [reflexivity|]. eapply nth_error_In; eauto.
  - left. eexists. reflexivity.
Qed.

Lemma list_remove_in (x : nat) (l : list nat) :
  In x l ->
  exists l', list_remove x l = ok l' /\ List.length l = S (List.length l').
Proof.
  induction l as [|y l IH]; intro H; [destruct H|]. simpl.
  destruct (Nat.eqb_spec x y) as [->|Hne].
  - now exists l.
  - destruct H as [H|H]; [congruence|].
    destruct (IH H) as (l' & -> & Hlen). cbn [rbind].
    exists (y :: l'). split; [reflexivity|]. simpl. now rewrite Hlen.
Qed.

(** The rejection loop makes progress: with more fuel than indices left to
    draw from, it ends by returning a source or by raising; it does not run
    out of fuel. *)
Lemma draw_source_terminates (data : list string) (base_pos : nat) :
  forall (fuel : nat) (random_choices : list nat) (g : rng),
    List.length random_choices < fuel ->
    fst (draw_source fuel data base_pos random_choices g) <> raise NonTermination.
Proof.
  induction fuel as [|fuel IH]; intros choices g Hlen; [lia|].
  cbn [draw_source]. unfold rand_bind at 1.
  destruct (random_choice_cases choices g) as [[g' ->]|(idx & g' & -> & Hin)];
    [discriminate|].
  unfold ok at 1. unfold rand_bind at 1. unfold lift at 1.
  destruct (getnat data idx) as [e|sentence] eqn:E1.
  { unfold getnat in E1. destruct (nth_error data idx); inversion E1.
    discriminate. }
  unfold rand_bind at 1. unfold lift at 1.
  destruct (source_query_box_pos (strip_answer sentence)) as [e|pos] eqn:E2.
  { apply source_query_box_pos_raises in E2. subst. discriminate. }
  unfold rand_bind at 1. unfold lift at 1.
  destruct (list_remove_in idx choices Hin) as (choices' & -> & Hlen').
  unfold ok at 1.
  destruct (Nat.eqb pos base_pos).
  - apply IH. lia.
  - discriminate.
Qed.

(** What the comprehension of every lookup computes: the index of the first
    scanned segment that contains the label as a substring, whole token or
    not, and [IndexError] when no segment does.  Over the context segments of
    the scenario sentence that is 0 for label B, which occurs in the word Box
    of the first segment. *)
Lemma label_lookup_first_substring_match :
  (forall (label : string) (segments : list string),
      match first_matching_segment label segments with
      | inr p =>
          (exists seg, nth_error segments p = Some seg /\ is_substring label seg)
          /\ (forall q seg, q < p -> nth_error segments q = Some seg ->
                            ~ is_substring label seg)
      | inl e =>
          e = IndexError
          /\ Forall (fun seg => ~ is_substring label seg) segments
      end)
  /\ first_matching_segment "B"
       (split ", " "The watch is in Box A, the pen is in Box B, the cup is in Box C")
     = ok 0
  /\ source_query_box_pos Fixtures.scenario_prompt = ok 0.
Proof.
  split; [|split; reflexivity].
  intros label segments. unfold first_matching_segment, matching_indices.
  rewrite getitem_head.
  pose proof (matching_from_head label segments 0) as H.
  destruct (matching_from label 0 segments) as [|i l].
  - split; [reflexivity|].
    eapply Forall_impl; [|exact H]. intros seg Hc. now apply contains_false.
  - destruct H as (_ & (seg & Hnth & Hc) & Hleast).
    rewrite Nat.sub_0_r in *. split.
    + exists seg. split; [exact Hnth|now apply contains_spec].
    + intros q seg' Hq Hs. apply contains_false. eapply Hleast; eauto.
Qed.

(** C1. On the sentence of the end-to-end scenario the lookup of the base
    prompt's query box yields position 0: it scans the query, not the
    context.  The same lookup run over the context segments yields 0 as well,
    because each of the three segments contains the character B (in the word
    Box).  The segment that holds B as a whole token is the one at
    position 1.  On a sentence whose query box C is the third one, the base
    lookup yields 0 again, the lookup over the context 2. *)
Theorem scenario_box_position :
  strip_answer Fixtures.scenario_sentence = Fixtures.scenario_prompt
  /\ base_query_box_pos Fixtures.scenario_prompt = ok 0
  /\ source_query_box_pos Fixtures.scenario_prompt = ok 0
  /\ matching_indices "B"
       (split ", " "The watch is in Box A, the pen is in Box B, the cup is in Box C")
     = [0; 1; 2]
  /\ whole_token_indices "B"
       (split ", " "The watch is in Box A, the pen is in Box B, the cup is in Box C")
     = [1]
  /\ base_query_box_pos (strip_answer Fixtures.cup_sentence) = ok 0
  /\ source_query_box_pos (strip_answer Fixtures.cup_sentence) = ok 2.
Proof. repeat split; reflexivity. Qed.

(** C6. A sentence whose query names a box that no context segment mentions
    gets position 0 from the base lookup, whose error branch can never be
    taken, and [alter_box_object_association] goes on to pair it with a
    source prompt and a label and returns. *)
Theorem orphan_label_not_reported :
  matching_indices "Z"
    (split ", " "The watch is in Box A, the pen is in Box D, the cup is in Box C")
  = []
  /\ base_query_box_pos (strip_answer Fixtures.orphan_sentence) = ok 0
  /\ (forall base_prompt msg,
        base_query_box_pos base_prompt <> raise (ValueError msg))
  /\ fst (alter_box_object_association_examples Fixtures.char_encode
            [Fixtures.orphan_sentence; Fixtures.cup_sentence] 2
            (Fixtures.replay [1; 1; 1; 1]))
     = ok (["The watch is in Box A, the pen is in Box D, the cup is in Box C. Box Z contains";
            "The watch is in Box A, the pen is in Box D, the cup is in Box C. Box C contains"],
           ["The watch is in Box A, the pen is in Box D, the cup is not in Box C. Box C contains";
            "The watch is in Box A, the pen is in Box D, the cup is not in Box C. Box C contains"],
           [99%Z; 99%Z]).
Proof.
  split; [reflexivity|]. split; [reflexivity|]. split; [|reflexivity].
  intros base_prompt msg H. apply base_query_box_pos_raises in H. discriminate.
Qed.

(** ** [random_samples] *)

Lemma getitem_length {A} (l : list A) :
  getitem l (Z.of_nat (List.length l)) = raise IndexError.
Proof.
  rewrite getitem_nat. unfold getnat.
  now rewrite (proj2 (nth_error_None l (List.length l)) (le_n _)).
Qed.

Lemma redraw_fresh (fuel : nat) (data : list string) (i : Z) (g : rng) :
  redraw fuel data [] i g = (ok i, g).
Proof. destruct fuel; reflexivity. Qed.

(** C10. [random.randint(0, len(data))] includes its upper end: whenever the
    first raw draw of the generator lands on it, the index drawn is
    [len(data)], one past the last row, and [random_samples] fails with
    [IndexError], for any dataset and any [num_samples] from 1 to the number
    of rows. *)
Theorem random_samples_index_out_of_range (encode : string -> list Z)
    (pad_token_id : Z) (padding_left : bool) (fuel : nat) (data : list string)
    (num_samples : nat) (architecture : string) (g : rng) :
  1 <= num_samples <= List.length data ->
  draws g (cursor g) mod (List.length data + 1) = List.length data ->
  fst (random_randint 0 (Z.of_nat (List.length data)) g)
  = ok (Z.of_nat (List.length data))
  /\ fst (random_samples encode pad_token_id padding_left fuel data
            num_samples architecture g) = raise IndexError.
Proof.
  intros [H1 H2] Hdraw.
  assert (Hn : Z.to_nat (Z.of_nat (List.length data) - 0 + 1)
               = List.length data + 1) by lia.
  assert (Hrand : random_randint 0 (Z.of_nat (List.length data)) g
                  = (ok (Z.of_nat (List.length data)),
                     {| draws := draws g; cursor := S (cursor g) |})).
  { unfold random_randint.
    destruct (Z.ltb_spec (Z.of_nat (List.length data)) 0); [lia|].
    unfold rand_bind, randbelow, rret, ok. rewrite Hn, Hdraw. reflexivity. }
  split; [now rewrite Hrand|].
  unfold random_samples.
  destruct (Nat.ltb_spec (List.length data) num_samples); [lia|].
  destruct num_samples as [|n]; [lia|].
  cbn [seq rfor]. unfold rand_bind at 1 2.
  unfold random_samples_body at 1. unfold rand_bind at 1.
  rewrite Hrand. unfold ok at 1. unfold rand_bind at 1.
  rewrite redraw_fresh. unfold ok at 1. unfold rand_bind at 1.
  unfold lift at 1. rewrite getitem_length. reflexivity.
Qed.

Lemma random_samples_index_out_of_range_witness :
  1 <= 1 <= List.length [Fixtures.cup_sentence]
  /\ draws (Fixtures.counting 1) (cursor (Fixtures.counting 1))
     mod (List.length [Fixtures.cup_sentence] + 1)
     = List.length [Fixtures.cup_sentence]
  /\ fst (random_randint 0 1 (Fixtures.counting 1)) = ok 1%Z
  /\ fst (random_samples Fixtures.char_encode 0 false 5 [Fixtures.cup_sentence]
            1 "LlamaForCausalLM" (Fixtures.counting 1)) = raise IndexError.
Proof.
  assert (H1 : 1 <= 1 <= List.length [Fixtures.cup_sentence]) by (simpl; lia).
  assert (H2 : draws (Fixtures.counting 1) (cursor (Fixtures.counting 1))
               mod (List.length [Fixtures.cup_sentence] + 1)
               = List.length [Fixtures.cup_sentence]) by reflexivity.
  split; [exact H1|]. split; [exact H2|].
  exact (random_samples_index_out_of_range Fixtures.char_encode 0 false 5
           [Fixtures.cup_sentence] 1 "LlamaForCausalLM" (Fixtures.counting 1)
           H1 H2).
Defined.

(** ** Repeated invocation of an editor *)

(** *** Programs that read the generator only through the draws to come *)












Section Replay.

Variable encode : string -> list Z.
Variable pad_token_id : Z.
Variable padding_left : bool.
Variable perturb : string -> nat -> result string.
Variable label_slot : nat -> nat.




End Replay.





(** ** Concrete runs of the aligners *)

(** [box_index_aligner_examples] returns two base rows and an empty seventh
    list. *)
Lemma box_index_aligner_unequal_lengths :
  exists o g',
    box_index_aligner_examples Fixtures.char_encode 0 false
      [Fixtures.cup_sentence; Fixtures.pen_sentence] 2 1 "LlamaForCausalLM"
      (Fixtures.counting 0) = (ok o, g')
    /\ List.length (all_base_input_ids o) = 2
    /\ List.length (all_incorrect_output_ids o) = 0
    /\ List.length (all_base_input_ids o)
       <> List.length (all_incorrect_output_ids o).
Proof.
  eexists. eexists. split; [vm_compute; reflexivity|].
  repeat split; try reflexivity. discriminate.
Qed.

Lemma aligner_sequences_aligned_witness :
  (exists o g' ids lti out,
      box_index_aligner_examples Fixtures.char_encode 0 false
        [Fixtures.cup_sentence; Fixtures.pen_sentence] 2 1 "LlamaForCausalLM"
        (Fixtures.counting 0) = (ok o, g')
      /\ entity_tracking_example_sampler Fixtures.char_encode 0 false
           [Fixtures.cup_sentence; Fixtures.pen_sentence] 2 "LlamaForCausalLM"
         = ok (ids, lti, out)
      /\ aligned_rows ids lti out 2 o
      /\ all_incorrect_output_ids o = [])
  /\ (exists r ids lti out,
        change_query_box_pos Fixtures.char_encode 0 false
          [Fixtures.cup_sentence; Fixtures.pen_sentence] 2 = ok r
        /\ change_box_label Fixtures.char_encode 0 false
             [Fixtures.cup_sentence; Fixtures.pen_sentence] 2
           = ok (ids, lti, out)
        /\ paired_rows ids lti out ((2 + 1) / 2) r).
Proof.
  pose proof (aligner_sequences_aligned Fixtures.char_encode 0 false
                [Fixtures.cup_sentence; Fixtures.pen_sentence] 2 1
                "LlamaForCausalLM") as [Hbox Hpairs].
  split.
  - destruct (box_index_aligner_examples Fixtures.char_encode 0 false
                [Fixtures.cup_sentence; Fixtures.pen_sentence] 2 1
                "LlamaForCausalLM" (Fixtures.counting 0)) as [[e|o] g'] eqn:E.
    + vm_compute in E. discriminate.
    + destruct (Hbox _ _ _ E) as (ids & lti & out & Hs & Hal & Hinc).
      exists o, g', ids, lti, out. auto.
  - destruct (change_query_box_pos Fixtures.char_encode 0 false
                [Fixtures.cup_sentence; Fixtures.pen_sentence] 2)
      as [e|r] eqn:E.
    + vm_compute in E. discriminate.
    + destruct (Hpairs r eq_refl) as (ids & lti & out & Hc & Hp).
      exists r, ids, lti, out. auto.
Defined.


(** * Further properties *)

(** ** Strings *)

Lemma sappend_nil_r (s : string) : (s ++ "")%string = s.
Proof. induction s as [|c s IH]; simpl; [reflexivity|now rewrite IH]. Qed.

Lemma sappend_assoc (a b c : string) :
  ((a ++ b) ++ c)%string = (a ++ (b ++ c))%string.
Proof. induction a as [|x a IH]; simpl; [reflexivity|now rewrite IH]. Qed.

Lemma slength_append (a b : string) :
  String.length (a ++ b) = String.length a + String.length b.
Proof. induction a as [|x a IH]; simpl; [reflexivity|now rewrite IH]. Qed.

Lemma split_go_nonempty (sep s : string) (skip : nat) (cur : string) :
  split_go sep s skip cur <> [].
Proof.
  revert skip cur. induction s as [|c s IH]; intros skip cur; cbn [split_go].
  - discriminate.
  - destruct skip as [|k]; [|apply IH].
    destruct (prefix sep (String c s)); [discriminate|apply IH].
Qed.

Lemma split_nonempty (sep s : string) : split sep s <> [].
Proof. apply split_go_nonempty. Qed.

(** Passing over the rest of a separator that was just matched. *)
Lemma split_go_skip (sep t s cur : string) :
  split_go sep (t ++ s) (String.length t) cur = split_go sep s 0 cur.
Proof. induction t as [|c t IH]; simpl; [reflexivity|exact IH]. Qed.

Lemma join_cons (sep x : string) (l : list string) :
  l <> [] -> join sep (x :: l) = (x ++ sep ++ join sep l)%string.
Proof. destruct l; [congruence|reflexivity]. Qed.

Lemma join_split_go (sep : string) (n : nat) :
  sep <> EmptyString ->
  forall s cur, String.length s <= n ->
    join sep (split_go sep s 0 cur) = (cur ++ s)%string.
Proof.
  intro Hsep. induction n as [|n IH]; intros s cur Hlen.
  - destruct s; [|simpl in Hlen; lia]. simpl. now rewrite sappend_nil_r.
  - destruct s as [|c s]; [simpl; now rewrite sappend_nil_r|].
    cbn [split_go]. destruct (prefix sep (String c s)) eqn:E.
    + apply prefix_spec in E as [after E].
      destruct sep as [|d sep']; [congruence|].
      simpl in E. inversion E; subst.
      replace (String.length (String d sep') - 1) with (String.length sep')
        by (simpl; lia).
      rewrite split_go_skip.
      rewrite join_cons by apply split_go_nonempty.
      rewrite IH.
      * simpl. reflexivity.
      * simpl in Hlen. rewrite slength_append in Hlen. lia.
    + rewrite IH by (simpl in Hlen; lia).
      rewrite sappend_assoc. reflexivity.
Qed.

(** [sep.join(s.split(sep)) == s] *)
Lemma join_split (sep s : string) :
  sep <> EmptyString -> join sep (split sep s) = s.
Proof.
  intro H. unfold split. now rewrite (join_split_go sep (String.length s) H).
Qed.

(** A string that does not contain the separator is its own single piece. *)
Lemma split_go_whole (sep s cur : string) :
  contains sep s = false -> split_go sep s 0 cur = [(cur ++ s)%string].
Proof.
  revert cur. induction s as [|c s IH]; intros cur H.
  - simpl. now rewrite sappend_nil_r.
  - cbn [contains] in H. apply orb_false_iff in H as [H1 H2].
    cbn [split_go]. rewrite H1, IH by exact H2.
    now rewrite sappend_assoc.
Qed.

Lemma nth_error_last {A} (l : list A) (d : A) :
  l <> [] -> nth_error l (List.length l - 1) = Some (last l d).
Proof.
  induction l as [|x l IH]; intro H; [congruence|].
  destruct l as [|y l]; [reflexivity|].
  specialize (IH ltac:(discriminate)).
  replace (List.length (x :: y :: l) - 1) with (S (List.length (y :: l) - 1))
    by (simpl; lia).
  exact IH.
Qed.

Lemma getitem_last {A} (l : list A) (d : A) :
  l <> [] -> getitem l (-1) = ok (last l d).
Proof.
  intro H. unfold getitem.
  assert (Hlen : 0 < List.length l) by (destruct l; [congruence|simpl; lia]).
  destruct (Z.ltb_spec (-1) 0); [|lia].
  destruct (Z.ltb_spec (-1 + Z.of_nat (List.length l)) 0); [lia|].
  destruct (Z.leb_spec (Z.of_nat (List.length l))
              (-1 + Z.of_nat (List.length l))); [lia|].
  cbn [orb].
  replace (Z.to_nat (-1 + Z.of_nat (List.length l)))
    with (List.length l - 1) by lia.
  now rewrite (nth_error_last l d H).
Qed.

Lemma join_snoc (sep w : string) (l : list string) :
  l <> [] -> join sep (l ++ [w]) = (join sep l ++ sep ++ w)%string.
Proof.
  induction l as [|x l IH]; intro H; [congruence|].
  destruct l as [|y l].
  - reflexivity.
  - change ((x :: y :: l) ++ [w]) with (x :: ((y :: l) ++ [w])).
    rewrite join_cons by (simpl; discriminate).
    rewrite IH by discriminate.
    rewrite (join_cons sep x (y :: l)) by discriminate.
    now rewrite !sappend_assoc.
Qed.

(** X1. Splitting a sentence into base prompt and answer loses nothing: the
    words joined by single spaces give the sentence back; the answer is the
    last word without its final character; with at least two words the
    sentence is the base prompt, a space and the last word; and a sentence
    without a space has an empty base prompt and is its own last word. *)
Theorem sentence_decomposition (sentence : string) :
  join " " (split " " sentence) = sentence
  /\ exists word,
       getitem (split " " sentence) (-1) = ok word
       /\ answer_word sentence = ok (drop_last_char word)
       /\ (2 <= List.length (split " " sentence) ->
           sentence = (strip_answer sentence ++ " " ++ word)%string)
       /\ (contains " " sentence = false ->
           strip_answer sentence = EmptyString /\ word = sentence).
Proof.
  assert (Hsep : " "%string <> EmptyString) by discriminate.
  pose proof (join_split " " sentence Hsep) as Hjoin.
  split; [exact Hjoin|].
  pose proof (split_nonempty " " sentence) as Hne.
  exists (last (split " " sentence) EmptyString).
  pose proof (getitem_last (split " " sentence) EmptyString Hne) as Hlast.
  split; [exact Hlast|]. split.
  { unfold answer_word. rewrite Hlast. reflexivity. }
  split.
  - intro H2. unfold strip_answer.
    rewrite <- Hjoin at 1.
    rewrite (app_removelast_last EmptyString Hne) at 1.
    apply join_snoc.
    destruct (split " " sentence) as [|x [|y l]]; simpl in *; try lia.
    destruct l; discriminate.
  - intro Hc. unfold strip_answer, split in *.
    rewrite (split_go_whole " " sentence EmptyString Hc). simpl. auto.
Qed.

(** ** The loop shared by the position editors *)

Lemma rfor_app {A S} (body : A -> S -> Rand S) (xs ys : list A) (s : S) (g : rng) :
  rfor body (xs ++ ys) s g = rand_bind (rfor body xs s) (rfor body ys) g.
Proof.
  revert s g. induction xs as [|x xs IH]; intros s g.
  - reflexivity.
  - cbn [app rfor]. unfold rand_bind in *.
    destruct (body x s g) as [[e|s'] g1]; [reflexivity|]. apply IH.
Qed.

Lemma swap_incl {A} (x : list A) (i j : nat) : incl (swap x i j) x.
Proof.
  unfold swap.
  destruct (nth_error x i) as [xi|] eqn:Ei; [|apply incl_refl].
  destruct (nth_error x j) as [xj|] eqn:Ej; [|apply incl_refl].
  assert (H1 : incl (firstn i x ++ xj :: skipn (S i) x) x).
  { intros a Ha. apply in_app_or in Ha as [Ha|[<-|Ha]].
    - eapply in_firstn_in; eauto.
    - eapply nth_error_In; eauto.
    - eapply in_skipn_in; eauto. }
  intros a Ha. apply in_app_or in Ha as [Ha|[<-|Ha]].
  - apply H1. eapply in_firstn_in; eauto.
  - eapply nth_error_In; eauto.
  - apply H1. eapply in_skipn_in; eauto.
Qed.

Lemma shuffle_from_incl {A} (i : nat) :
  forall (x x' : list A) (g g' : rng),
    shuffle_from i x g = (inr x', g') -> incl x' x.
Proof.
  induction i as [|i IH]; intros x x' g g' H.
  - apply rret_inv in H as [-> _]. apply incl_refl.
  - cbn [shuffle_from] in H. apply rand_bind_inv in H as (j & g1 & _ & H).
    apply IH in H. eapply incl_tran; [exact H|apply swap_incl].
Qed.

Lemma random_shuffle_incl {A} (x x' : list A) (g g' : rng) :
  random_shuffle x g = (inr x', g') -> incl x' x.
Proof. apply shuffle_from_incl. Qed.

Lemma list_remove_incl (x : nat) (l l' : list nat) :
  list_remove x l = ok l' -> incl l' l.
Proof.
  revert l'. induction l as [|y l IH]; intros l' H; simpl in H; [discriminate|].
  destruct (Nat.eqb x y).
  - inversion H; subst. apply incl_tl, incl_refl.
  - destruct (list_remove x l) as [e|r]; [discriminate|].
    cbn [rbind] in H. inversion H; subst.
    intros a [<-|Ha]; [now left|right; now apply (IH r eq_refl)].
Qed.

(** What a source returned by the rejection loop is. *)
Lemma draw_source_inv (data : list string) (base_pos : nat) (fuel : nat) :
  forall (choices : list nat) (g g' : rng) (source_prompt : string) (pos : nat),
    draw_source fuel data base_pos choices g = (inr (source_prompt, pos), g') ->
    exists idx sampled,
      In idx choices
      /\ nth_error data idx = Some sampled
      /\ source_prompt = strip_answer sampled
      /\ source_query_box_pos source_prompt = ok pos
      /\ pos <> base_pos.
Proof.
  induction fuel as [|fuel IH]; intros choices g g' source_prompt pos H.
  - cbn in H. apply lift_inv in H as [H _]. discriminate.
  - cbn [draw_source] in H.
    apply rand_bind_inv in H as (idx & g1 & Hc & H).
    apply rand_bind_inv in H as (sampled & g2 & Hd & H).
    apply lift_inv in Hd as [Hd ->].
    apply rand_bind_inv in H as (p & g3 & Hp & H).
    apply lift_inv in Hp as [Hp ->].
    apply rand_bind_inv in H as (choices' & g4 & Hr & H).
    apply lift_inv in Hr as [Hr ->].
    assert (Hin : In idx choices).
    { destruct (random_choice_cases choices g)
        as [[g0 E]|(y & g0 & E & Hy)]; rewrite E in Hc.
      - discriminate.
      - unfold ok in Hc. inversion Hc; subst. exact Hy. }
    destruct (Nat.eqb_spec p base_pos) as [->|Hne].
    + apply IH in H as (idx' & sampled' & Hin' & rest).
      exists idx', sampled'. split; [|exact rest].
      eapply list_remove_incl; eauto.
    + apply rret_inv in H as [H _]. inversion H; subst.
      exists idx, sampled. apply getnat_inv in Hd. auto.
Qed.

Section EditorLoop.

Variable encode : string -> list Z.
Variable perturb : string -> nat -> result string.
Variable label_slot : nat -> nat.

(** One pass of the loop appends one entry to each of the three lists. *)
Lemma editor_body_inv (data : list string) (num_samples i : nat)
    (base_prompts source_prompts : list string) (labels : list Z)
    (st' : examples) (g g' : rng) :
  editor_body encode perturb label_slot data num_samples i
    (base_prompts, source_prompts, labels) g = (inr st', g') ->
  exists sentence source_prompt label,
    nth_error data i = Some sentence
    /\ st' = (base_prompts ++ [strip_answer sentence],
              source_prompts ++ [source_prompt], labels ++ [label])
    /\ sampled_pair encode perturb label_slot data num_samples i
         source_prompt label.
Proof.
  unfold editor_body. intro H.
  apply rand_bind_inv in H as (sentence & g1 & Hs & H).
  apply lift_inv in Hs as [Hs ->]. apply getnat_inv in Hs.
  apply rand_bind_inv in H as (base_pos & g2 & Hb & H).
  apply lift_inv in Hb as [Hb ->].
  apply rand_bind_inv in H as (choices & g3 & Hsh & H).
  apply rand_bind_inv in H as ([drawn pos] & g4 & Hd & H).
  apply rand_bind_inv in H as (source_prompt & g5 & Hp & H).
  apply lift_inv in Hp as [Hp ->].
  apply rand_bind_inv in H as (base_context & g6 & Hc & H).
  apply lift_inv in Hc as [Hc ->].
  apply rand_bind_inv in H as (segment & g7 & Hseg & H).
  apply lift_inv in Hseg as [Hseg ->]. apply getnat_inv in Hseg.
  apply rand_bind_inv in H as (correct_object & g8 & Ho & H).
  apply lift_inv in Ho as [Ho ->].
  apply rand_bind_inv in H as (tok & g9 & Ht & H).
  apply lift_inv in Ht as [Ht ->].
  apply rret_inv in H as [-> _].
  apply draw_source_inv in Hd as (idx & sampled & Hin & Hn & -> & Hpos & Hne).
  apply random_shuffle_incl in Hsh. apply Hsh, in_seq in Hin.
  exists sentence, source_prompt, tok. split; [exact Hs|]. split; [reflexivity|].
  exists sentence, idx, sampled, pos, base_pos, base_context, segment,
    correct_object.
  repeat (split; [solve [assumption | lia]|]). assumption.
Qed.

(** The loop over the first [n] samples. *)
Lemma editor_loop_inv (data : list string) (num_samples : nat) (n : nat) :
  forall (g g' : rng) (base_prompts source_prompts : list string)
         (labels : list Z),
    rfor (editor_body encode perturb label_slot data num_samples) (seq 0 n)
         ([], [], []) g = (inr (base_prompts, source_prompts, labels), g') ->
    n <= List.length data
    /\ base_prompts = map strip_answer (firstn n data)
    /\ List.length source_prompts = n
    /\ List.length labels = n
    /\ forall i, i < n ->
         exists source_prompt label,
           nth_error source_prompts i = Some source_prompt
           /\ nth_error labels i = Some label
           /\ sampled_pair encode perturb label_slot data num_samples i
                source_prompt label.
Proof.
  induction n as [|n IH]; intros g g' bps sps lbs H.
  - cbn in H. apply rret_inv in H as [H _]. inversion H; subst.
    repeat split; try reflexivity; [simpl; lia|]. intros i Hi. lia.
  - rewrite seq_S, rfor_app in H. cbn [Nat.add] in H.
    apply rand_bind_inv in H as ([[bps1 sps1] lbs1] & g1 & H1 & H).
    apply IH in H1 as (Hn & -> & Lsp & Llb & Hall).
    cbn [rfor] in H. apply rand_bind_inv in H as (st' & g2 & Hb & H).
    apply rret_inv in H as [H _]. subst st'.
    apply editor_body_inv in Hb as (sentence & src & lab & Hs & E & Hpair).
    injection E as -> -> ->.
    assert (n < List.length data) by (apply nth_error_Some; congruence).
    split; [lia|]. split.
    { rewrite (firstn_snoc data n sentence Hs), map_app. reflexivity. }
    rewrite !length_app. cbn [List.length].
    split; [lia|]. split; [lia|].
    intros i Hi. destruct (Nat.eq_dec i n) as [->|Hne].
    + exists src, lab. rewrite !nth_error_app2 by lia.
      rewrite Lsp, Llb, Nat.sub_diag. auto.
    + destruct (Hall i ltac:(lia)) as (s0 & l0 & A1 & A2 & A3).
      exists s0, l0. rewrite !nth_error_app1 by lia. auto.
Qed.

Lemma editor_examples_inv (data : list string) (num_samples : nat)
    (g g' : rng) (base_prompts source_prompts : list string) (labels : list Z) :
  editor_examples encode perturb label_slot data num_samples g
  = (inr (base_prompts, source_prompts, labels), g') ->
  rfor (editor_body encode perturb label_slot data num_samples)
       (seq 0 num_samples) ([], [], []) g
  = (inr (base_prompts, source_prompts, labels), g').
Proof.
  unfold editor_examples.
  destruct (List.length data <? num_samples)%nat; [|auto].
  intro H. apply lift_inv in H as [H _]. discriminate.
Qed.

Lemma editor_examples_keep_alignment :
  keeps_alignment (editor_examples encode perturb label_slot).
Proof.
  intros data n g bps sps lbs g' H.
  apply editor_examples_inv, editor_loop_inv in H as (Hn & Hb & Ls & Ll & _).
  auto.
Qed.

(** X3. Whenever an editor of the family returns, every source prompt is the
    rewriting of a sentence drawn among the first [num_samples] sentences
    whose query box position differs from the one found for the base prompt
    of the same example, and every label is read from that base prompt. *)
Theorem editor_sources_differ_in_position (data : list string)
    (num_samples : nat) (g g' : rng) (base_prompts source_prompts : list string)
    (labels : list Z) :
  editor_examples encode perturb label_slot data num_samples g
  = (ok (base_prompts, source_prompts, labels), g') ->
  forall i, i < num_samples ->
    exists source_prompt label,
      nth_error source_prompts i = Some source_prompt
      /\ nth_error labels i = Some label
      /\ sampled_pair encode perturb label_slot data num_samples i
           source_prompt label.
Proof.
  intro H. apply editor_examples_inv, editor_loop_inv in H. apply H.
Qed.

End EditorLoop.

(** X2. Each of the twelve editors of the family returns, whenever it
    returns, one base prompt, one source prompt and one label per requested
    sample, the base prompts being the first [num_samples] sentences without
    their answers, in dataset order. *)
Theorem position_editors_keep_alignment (encode : string -> list Z) :
  keeps_alignment (alter_box_object_association_examples encode)
  /\ keeps_alignment (add_box_before_correct_segment_examples encode)
  /\ keeps_alignment (add_raw_text_at_end_examples encode)
  /\ keeps_alignment (add_raw_text_at_start_examples encode)
  /\ keeps_alignment (add_segment_at_end_examples encode)
  /\ keeps_alignment (add_segment_at_start_examples encode)
  /\ keeps_alignment (additional_token_btw_box_and_object_examples encode)
  /\ keeps_alignment (diff_index_query_box_examples encode)
  /\ keeps_alignment (box_object_altered_order_examples encode)
  /\ keeps_alignment (add_comma_after_object_examples encode)
  /\ keeps_alignment (remove_comma_desiderata_examples encode)
  /\ keeps_alignment (positional_desiderata_examples encode).
Proof.
  repeat match goal with |- _ /\ _ => split end;
    exact (editor_examples_keep_alignment encode _ _).
Qed.

Lemma editor_sources_differ_in_position_witness :
  exists base_prompts source_prompts labels g',
    editor_examples Fixtures.char_encode negate_association (fun pos => pos)
      [Fixtures.orphan_sentence; Fixtures.cup_sentence] 2
      (Fixtures.replay [1; 1; 1; 1])
    = (ok (base_prompts, source_prompts, labels), g')
    /\ exists source_prompt label,
         nth_error source_prompts 0 = Some source_prompt
         /\ nth_error labels 0 = Some label
         /\ sampled_pair Fixtures.char_encode negate_association
              (fun pos => pos)
              [Fixtures.orphan_sentence; Fixtures.cup_sentence] 2 0
              source_prompt label.
Proof.
  destruct (editor_examples Fixtures.char_encode negate_association
              (fun pos => pos)
              [Fixtures.orphan_sentence; Fixtures.cup_sentence] 2
              (Fixtures.replay [1; 1; 1; 1]))
    as [[e|[[base_prompts source_prompts] labels]] g'] eqn:E.
  - vm_compute in E. discriminate.
  - exists base_prompts, source_prompts, labels, g'. split; [reflexivity|].
    apply (editor_sources_differ_in_position Fixtures.char_encode
             negate_association (fun pos => pos)
             [Fixtures.orphan_sentence; Fixtures.cup_sentence] 2
             (Fixtures.replay [1; 1; 1; 1]) g' base_prompts source_prompts
             labels E 0).
    lia.
Defined.

Lemma position_editors_keep_alignment_witness :
  exists base_prompts source_prompts labels g',
    add_segment_at_end_examples Fixtures.char_encode
      [Fixtures.orphan_sentence; Fixtures.cup_sentence] 2
      (Fixtures.replay [1; 1; 1; 1])
    = (ok (base_prompts, source_prompts, labels), g')
    /\ base_prompts
       = map strip_answer
           (firstn 2 [Fixtures.orphan_sentence; Fixtures.cup_sentence])
    /\ List.length source_prompts = 2
    /\ List.length labels = 2.
Proof.
  destruct (add_segment_at_end_examples Fixtures.char_encode
              [Fixtures.orphan_sentence; Fixtures.cup_sentence] 2
              (Fixtures.replay [1; 1; 1; 1]))
    as [[e|[[base_prompts source_prompts] labels]] g'] eqn:E.
  - vm_compute in E. discriminate.
  - exists base_prompts, source_prompts, labels, g'. split; [reflexivity|].
    destruct (position_editors_keep_alignment Fixtures.char_encode)
      as (_ & _ & _ & _ & H & _).
    destruct (H _ _ _ _ _ _ _ E) as (Hb & Hs & Hl & _). auto.
Defined.

(** ** The rejection loop *)

Lemma random_shuffle_returns {A} (x : list A) (g : rng) :
  exists x' g', random_shuffle x g = (inr x', g').
Proof.
  unfold random_shuffle. generalize (List.length x - 1). intro i.
  revert x g. induction i as [|i IH]; intros x g.
  - now exists x, g.
  - cbn [shuffle_from]. unfold rand_bind, randbelow, ok. apply IH.
Qed.

(** With more fuel than indices to draw from, the loop returns a source whose
    position differs from the base's or raises [IndexError]. *)
Lemma draw_source_outcome (data : list string) (base_pos : nat) :
  forall (fuel : nat) (choices : list nat) (g : rng),
    List.length choices < fuel ->
    match fst (draw_source fuel data base_pos choices g) with
    | inr (_, pos) => pos <> base_pos
    | inl e => e = IndexError
    end.
Proof.
  induction fuel as [|fuel IH]; intros choices g Hlen; [lia|].
  cbn [draw_source]. unfold rand_bind at 1.
  destruct (random_choice_cases choices g) as [[g' ->]|(idx & g' & -> & Hin)];
    [reflexivity|].
  unfold ok at 1. unfold rand_bind at 1. unfold lift at 1.
  destruct (getnat data idx) as [e|sentence] eqn:E1.
  { unfold getnat in E1. destruct (nth_error data idx); inversion E1.
    reflexivity. }
  unfold rand_bind at 1. unfold lift at 1.
  destruct (source_query_box_pos (strip_answer sentence)) as [e|pos] eqn:E2.
  { apply source_query_box_pos_raises in E2. subst. reflexivity. }
  unfold rand_bind at 1. unfold lift at 1.
  destruct (list_remove_in idx choices Hin) as (choices' & -> & Hlen').
  unfold ok at 1.
  destruct (Nat.eqb_spec pos base_pos) as [->|Hne].
  - apply IH. lia.
  - exact Hne.
Qed.

(** X4. The rejection loop of the editors makes at most one pass per index
    it may draw, plus one: it returns a source whose query box position
    differs from the base's, or it raises [IndexError]; it raises nothing
    else and does not go on forever. *)
Theorem rejection_loop_is_bounded (data : list string) (base_pos : nat)
    (random_choices : list nat) (g : rng) :
  match fst (draw_source (S (List.length random_choices)) data base_pos
               random_choices g) with
  | inr (_, pos) => pos <> base_pos
  | inl e => e = IndexError
  end.
Proof. apply draw_source_outcome. lia. Qed.

(** When every index left leads to the position of the base, the loop ends
    with the [IndexError] of [random.choice] on the emptied list. *)
Lemma draw_source_exhausted (data : list string) (base_pos : nat) :
  forall (fuel : nat) (choices : list nat) (g : rng),
    List.length choices < fuel ->
    (forall idx, In idx choices ->
       exists sampled,
         nth_error data idx = Some sampled
         /\ source_query_box_pos (strip_answer sampled) = ok base_pos) ->
    exists g', draw_source fuel data base_pos choices g = (raise IndexError, g').
Proof.
  induction fuel as [|fuel IH]; intros choices g Hlen Hall; [lia|].
  cbn [draw_source]. unfold rand_bind at 1.
  destruct (random_choice_cases choices g) as [[g' ->]|(idx & g' & -> & Hin)];
    [now exists g'|].
  destruct (Hall idx Hin) as (sampled & Hs & Hp).
  unfold ok at 1. unfold rand_bind at 1. unfold lift at 1.
  rewrite (getnat_ok data idx sampled Hs). unfold ok at 1.
  unfold rand_bind at 1. unfold lift at 1. rewrite Hp. unfold ok at 1.
  unfold rand_bind at 1. unfold lift at 1.
  destruct (list_remove_in idx choices Hin) as (choices' & Hr & Hlen').
  rewrite Hr. unfold ok at 1. rewrite Nat.eqb_refl.
  apply IH; [lia|]. intros j Hj. apply Hall.
  eapply list_remove_incl; eauto.
Qed.

(** X5. When every one of the first [num_samples] sentences has its query box
    at the position found for the first base prompt, no source can be
    accepted: the editor fails with the [IndexError] of [random.choice] on
    the emptied list, whatever the generator and the rewriting policy. *)
Theorem homogeneous_data_raises (encode : string -> list Z)
    (perturb : string -> nat -> result string) (label_slot : nat -> nat)
    (data : list string) (num_samples : nat) (first : string) (pos : nat)
    (g : rng) :
  1 <= num_samples <= List.length data ->
  nth_error data 0 = Some first ->
  base_query_box_pos (strip_answer first) = ok pos ->
  (forall i sentence, i < num_samples -> nth_error data i = Some sentence ->
     source_query_box_pos (strip_answer sentence) = ok pos) ->
  fst (editor_examples encode perturb label_slot data num_samples g)
  = raise IndexError.
Proof.
  intros [H1 H2] Hfirst Hbase Hall. unfold editor_examples.
  destruct (Nat.ltb_spec (List.length data) num_samples); [lia|].
  destruct num_samples as [|n]; [lia|].
  cbn [seq rfor]. unfold rand_bind at 1.
  unfold editor_body at 1. unfold rand_bind at 1. unfold lift at 1.
  rewrite (getnat_ok data 0 first Hfirst). unfold ok at 1.
  unfold rand_bind at 1. unfold lift at 1. rewrite Hbase. unfold ok at 1.
  unfold rand_bind at 1.
  destruct (random_shuffle_returns (seq 0 (S n)) g) as (choices & g1 & Hsh).
  rewrite Hsh. unfold rand_bind at 1.
  destruct (draw_source_exhausted data pos (S (List.length choices)) choices g1)
    as (g2 & ->); [lia| |reflexivity].
  intros idx Hin. apply (random_shuffle_incl _ _ _ _ Hsh), in_seq in Hin.
  destruct (nth_error_Some_lt_length data idx) as [sampled Hs]; [lia|].
  exists sampled. split; [exact Hs|]. apply (Hall idx); [lia|exact Hs].
Qed.

Lemma homogeneous_data_raises_witness :
  1 <= 1 <= List.length [Fixtures.scenario_sentence]
  /\ base_query_box_pos (strip_answer Fixtures.scenario_sentence) = ok 0
  /\ fst (editor_examples Fixtures.char_encode negate_association
            (fun pos => pos) [Fixtures.scenario_sentence] 1
            (Fixtures.counting 0))
     = raise IndexError.
Proof.
  assert (H1 : 1 <= 1 <= List.length [Fixtures.scenario_sentence])
    by (simpl; lia).
  assert (H2 : base_query_box_pos (strip_answer Fixtures.scenario_sentence)
               = ok 0) by reflexivity.
  split; [exact H1|]. split; [exact H2|].
  apply (homogeneous_data_raises Fixtures.char_encode negate_association
           (fun pos => pos) [Fixtures.scenario_sentence] 1
           Fixtures.scenario_sentence 0 (Fixtures.counting 0) H1 eq_refl H2).
  intros i sentence Hi Hs. destruct i as [|i]; [|lia].
  inversion Hs; subst. reflexivity.
Defined.

(** ** Putting a prompt together again around one segment *)

Lemma join_middle (sep x : string) (l1 l2 : list string) :
  join sep (l1 ++ x :: l2)
  = (join sep l1
     ++ match l1 with [] => "" | _ => sep end
     ++ x
     ++ match l2 with [] => "" | _ => sep end
     ++ join sep l2)%string.
Proof.
  induction l1 as [|y l1 IH].
  - destruct l2 as [|z l2]; simpl.
    + now rewrite sappend_nil_r.
    + reflexivity.
  - change ((y :: l1) ++ x :: l2) with (y :: (l1 ++ x :: l2)).
    rewrite join_cons by (destruct l1; discriminate).
    rewrite IH. destruct l1 as [|z l1].
    + simpl. reflexivity.
    + rewrite (join_cons sep y (z :: l1)) by discriminate.
      now rewrite !sappend_assoc.
Qed.

Lemma firstn_nil_iff {A} (l : list A) (pos : nat) :
  pos < List.length l -> (firstn pos l = [] <-> pos = 0).
Proof.
  intro H. destruct pos; [simpl; tauto|].
  destruct l; [simpl in H; lia|]. simpl. split; [discriminate|lia].
Qed.

Lemma skipn_nil_iff {A} (l : list A) (pos : nat) :
  pos < List.length l -> (skipn (pos + 1) l = [] <-> pos = List.length l - 1).
Proof.
  intro H. split.
  - intro E. apply (f_equal (@List.length A)) in E.
    rewrite length_skipn in E. simpl in E. lia.
  - intros ->. apply skipn_all2. lia.
Qed.

(** The hand-written separators amount to joining the list of segments with
    the one at [pos] replaced. *)
Lemma splice_is_join (segments : list string) (pos : nat) (segment : string) :
  pos < List.length segments ->
  (join ", " (firstn pos segments)
   ++ (if Nat.eqb pos 0 then "" else ", ")
   ++ segment
   ++ (if Nat.eqb pos (List.length segments - 1) then "" else ", ")
   ++ join ", " (skipn (pos + 1) segments))%string
  = join ", " (firstn pos segments ++ segment :: skipn (pos + 1) segments).
Proof.
  intro H. rewrite join_middle.
  pose proof (firstn_nil_iff segments pos H) as Hf.
  pose proof (skipn_nil_iff segments pos H) as Hs.
  destruct (Nat.eqb_spec pos 0) as [E0|E0];
    destruct (firstn pos segments) as [|a l1] eqn:Ef; try tauto;
    try (exfalso; apply E0; apply Hf; reflexivity);
    try (exfalso; assert (a :: l1 = []) by (apply Hf; exact E0); discriminate);
    destruct (Nat.eqb_spec pos (List.length segments - 1)) as [E1|E1];
    destruct (skipn (pos + 1) segments) as [|b l2] eqn:Es;
    try reflexivity;
    try (exfalso; apply E1; apply Hs; reflexivity);
    try (exfalso; assert (b :: l2 = []) by (apply Hs; exact E1); discriminate).
Qed.

Lemma getitem_zero_hd (l : list string) :
  l <> [] -> getitem l 0 = ok (hd EmptyString l).
Proof. intro H. rewrite getitem_head. destruct l; [congruence|reflexivity]. Qed.

Lemma splice_segment_spec (source_prompt : string) (pos : nat)
    (segment : string) :
  pos < List.length (split ", " (hd EmptyString (split ". " source_prompt))) ->
  splice_segment source_prompt pos segment
  = ok (join ", " (firstn pos (split ", " (hd EmptyString (split ". " source_prompt)))
                   ++ segment
                   :: skipn (pos + 1)
                        (split ", " (hd EmptyString (split ". " source_prompt))))
        ++ ". " ++ last (split ". " source_prompt) EmptyString)%string.
Proof.
  intro H. unfold splice_segment.
  rewrite (getitem_zero_hd _ (split_nonempty ". " source_prompt)).
  unfold ok at 1. cbn [rbind].
  rewrite (getitem_last _ EmptyString (split_nonempty ". " source_prompt)).
  unfold ok at 1. cbn [rbind].
  rewrite <- (splice_is_join _ pos segment H).
  now rewrite !sappend_assoc.
Qed.

(** X6. In [alter_box_object_association], [add_box_before_correct_segment]
    and [additional_token_btw_box_and_object] the rewritten source prompt is
    the context with exactly the segment of the query box replaced, the other
    segments and the separators kept, followed by the query; this holds at
    the first and at the last position as well. *)
Theorem rewritten_context_replaces_one_segment (source_prompt : string)
    (pos : nat) :
  let segments := split ", " (hd EmptyString (split ". " source_prompt)) in
  let query := last (split ". " source_prompt) EmptyString in
  let rebuilt segment :=
    (join ", " (firstn pos segments ++ segment :: skipn (pos + 1) segments)
     ++ ". " ++ query)%string in
  pos < List.length segments ->
  negate_association source_prompt pos
  = ok (rebuilt (replace " is in" " is not in" (nth pos segments EmptyString)))
  /\ contained_in_the source_prompt pos
     = ok (rebuilt (replace " is in" " is contained in the"
                      (nth pos segments EmptyString)))
  /\ announce_boxes source_prompt pos
     = ok (rebuilt
             ((if Nat.eqb pos 0
               then "There are three additional boxes, Box PP, Box BB and Box AA, "
               else "there are three additional boxes, Box PP, Box BB and Box AA, ")
              ++ nth pos segments EmptyString)%string).
Proof.
  cbv zeta. intro H.
  set (segments := split ", " (hd EmptyString (split ". " source_prompt))) in *.
  assert (Hseg : getnat segments pos = ok (nth pos segments EmptyString))
    by (apply getnat_ok, nth_error_nth'; exact H).
  assert (Hq : query_box_segment source_prompt pos
               = ok (nth pos segments EmptyString)).
  { unfold query_box_segment.
    rewrite (getitem_zero_hd _ (split_nonempty ". " source_prompt)).
    unfold ok at 1. cbn [rbind]. exact Hseg. }
  split; [|split].
  - unfold negate_association.
    rewrite (getitem_zero_hd _ (split_nonempty ". " source_prompt)).
    unfold ok at 1. cbn [rbind]. fold segments. rewrite Hseg.
    unfold ok at 1. cbn [rbind].
    rewrite (getitem_last _ EmptyString (split_nonempty ". " source_prompt)).
    unfold ok at 1. cbn [rbind].
    rewrite <- (splice_is_join segments pos _ H).
    now rewrite !sappend_assoc.
  - unfold contained_in_the. rewrite Hq. unfold ok at 1. cbn [rbind].
    now apply splice_segment_spec.
  - unfold announce_boxes. rewrite Hq. unfold ok at 1. cbn [rbind].
    destruct (Nat.eqb pos 0); now apply splice_segment_spec.
Qed.

Lemma rewritten_context_replaces_one_segment_witness :
  0 < List.length
        (split ", " (hd EmptyString (split ". " Fixtures.scenario_prompt)))
  /\ negate_association Fixtures.scenario_prompt 0
     = ok "The watch is not in Box A, the pen is in Box B, the cup is in Box C. Box B contains".
Proof.
  assert (H : 0 < List.length
                    (split ", "
                       (hd EmptyString (split ". " Fixtures.scenario_prompt))))
    by (vm_compute; lia).
  split; [exact H|].
  rewrite (proj1 (rewritten_context_replaces_one_segment
                    Fixtures.scenario_prompt 0 H)).
  reflexivity.
Defined.

(** X7. [box_object_altered_order] writes a separator on both sides of the
    turned-around segment whatever its position: compared with the context
    in which that one segment is replaced, its source prompt has one
    separator too many in front when the query box is the first one, and one
    too many before the full stop when it is the last one. *)
Theorem altered_order_separators (source_prompt : string) (pos : nat)
    (rewritten : string) :
  let segments := split ", " (hd EmptyString (split ". " source_prompt)) in
  let query := last (split ". " source_prompt) EmptyString in
  box_first source_prompt pos = ok rewritten ->
  exists source_box source_object,
    pos < List.length segments
    /\ getitem (split " " (nth pos segments EmptyString)) (-1) = ok source_box
    /\ getitem (split " " (nth pos segments EmptyString)) 1 = ok source_object
    /\ rewritten
       = ((if Nat.eqb pos 0 then ", " else "")
          ++ join ", "
               (firstn pos segments
                ++ ("Box " ++ source_box ++ " contains the " ++ source_object)
                :: skipn (pos + 1) segments)
          ++ (if Nat.eqb pos (List.length segments - 1) then ", " else "")
          ++ ". " ++ query)%string.
Proof.
  cbv zeta. unfold box_first, query_box_segment.
  rewrite (getitem_zero_hd _ (split_nonempty ". " source_prompt)).
  unfold ok at 1. cbn [rbind].
  set (segments := split ", " (hd EmptyString (split ". " source_prompt))).
  destruct (getnat segments pos) as [e|segment] eqn:Eseg; [discriminate|].
  cbn [rbind]. apply getnat_inv in Eseg.
  assert (Hpos : pos < List.length segments)
    by (apply nth_error_Some; congruence).
  rewrite (nth_error_nth _ _ EmptyString Eseg).
  destruct (getitem (split " " segment) (-1)) as [e|source_box] eqn:Ebox;
    [discriminate|].
  cbn [rbind].
  destruct (getitem (split " " segment) 1) as [e|source_object] eqn:Eobj;
    [discriminate|].
  cbn [rbind].
  unfold ok at 1. cbn [rbind].
  rewrite (getitem_last _ EmptyString (split_nonempty ". " source_prompt)).
  unfold ok at 1. cbn [rbind]. fold segments.
  remember ("Box " ++ source_box ++ " contains the " ++ source_object)%string
    as turned eqn:Eturned.
  intro H. unfold ok in H. injection H as <-.
  exists source_box, source_object. repeat (split; [assumption || reflexivity|]).
  rewrite <- Eturned. clear Eturned.
  rewrite join_middle.
  pose proof (firstn_nil_iff segments pos Hpos) as Hf.
  pose proof (skipn_nil_iff segments pos Hpos) as Hs.
  destruct (Nat.eqb_spec pos 0) as [E0|E0];
    destruct (firstn pos segments) as [|a l1] eqn:Ef; try tauto;
    try (exfalso; apply E0; apply Hf; reflexivity);
    try (exfalso; assert (a :: l1 = []) by (apply Hf; exact E0); discriminate);
    destruct (Nat.eqb_spec pos (List.length segments - 1)) as [E1|E1];
    destruct (skipn (pos + 1) segments) as [|b l2] eqn:Es;
    try (exfalso; apply E1; apply Hs; reflexivity);
    try (exfalso; assert (b :: l2 = []) by (apply Hs; exact E1); discriminate);
    generalize (last (split ". " source_prompt) EmptyString);
    repeat match goal with
           | |- context [join ?sep (?x :: ?l)] =>
               generalize (join sep (x :: l))
           end;
    intros; unfold join; cbn [String.concat];
    rewrite ?sappend_assoc; cbn [append]; rewrite ?sappend_assoc;
    reflexivity.
Qed.

Lemma altered_order_separators_witness :
  box_first (strip_answer Fixtures.cup_sentence) 0
  = ok ", Box A contains the watch, the pen is in Box D, the cup is in Box C. Box C contains"
  /\ exists source_box source_object,
       getitem
         (split " "
            (nth 0 (split ", " (hd EmptyString
                                  (split ". " (strip_answer Fixtures.cup_sentence))))
               EmptyString)) (-1) = ok source_box
       /\ getitem
            (split " "
               (nth 0 (split ", " (hd EmptyString
                                     (split ". " (strip_answer Fixtures.cup_sentence))))
                  EmptyString)) 1 = ok source_object.
Proof.
  assert (H : box_first (strip_answer Fixtures.cup_sentence) 0
              = ok ", Box A contains the watch, the pen is in Box D, the cup is in Box C. Box C contains")
    by reflexivity.
  split; [exact H|].
  destruct (altered_order_separators _ _ _ H) as (b & o & _ & Hb & Ho & _).
  exists b, o. split; assumption.
Defined.

(** ** The pieces of a dataset sentence *)

Lemma prefix_space (c : ascii) (s : string) :
  prefix " " (String c s) = if ascii_dec " " c then true else false.
Proof.
  cbn [prefix]. destruct (ascii_dec " " c); [|reflexivity].
  destruct s; reflexivity.
Qed.

Lemma split_space_app (a b cur : string) :
  split_go " " (a ++ " " ++ b) 0 cur
  = split_go " " a 0 cur ++ split_go " " b 0 EmptyString.
Proof.
  revert cur. induction a as [|c a IH]; intro cur.
  - change (("" ++ " " ++ b)%string) with (String " " b).
    cbn [split_go]. rewrite prefix_space.
    destruct (ascii_dec " " " "); [reflexivity|congruence].
  - change ((String c a ++ " " ++ b)%string)
      with (String c (a ++ " " ++ b)%string).
    cbn [split_go]. rewrite !prefix_space.
    destruct (ascii_dec " " c) as [E|E].
    + cbn [String.length Nat.sub app]. now rewrite IH.
    + apply IH.
Qed.

Lemma contains_space_dot (w : string) :
  contains " " w = false -> contains " " (w ++ ".") = false.
Proof.
  induction w as [|c w IH]; intro H; [reflexivity|].
  cbn [contains append] in *. apply orb_false_iff in H as [H1 H2].
  apply orb_false_iff. split; [|now apply IH].
  rewrite prefix_space in *. exact H1.
Qed.

Lemma drop_last_char_dot (w : string) : drop_last_char (w ++ ".") = w.
Proof.
  induction w as [|c w IH]; [reflexivity|].
  cbn [append drop_last_char]. rewrite IH.
  destruct (w ++ ".")%string eqn:E; [|reflexivity].
  destruct w; discriminate.
Qed.

(** A sentence that ends in a space, a word and one more character splits
    into what comes before the space and that word. *)
Lemma split_sentence (prompt word : string) :
  contains " " word = false ->
  split " " (prompt ++ " " ++ word) = split " " prompt ++ [word].
Proof.
  intro H. unfold split. rewrite split_space_app.
  now rewrite (split_go_whole " " word EmptyString H).
Qed.

Lemma strip_answer_sentence (prompt word : string) :
  contains " " word = false -> strip_answer (prompt ++ " " ++ word) = prompt.
Proof.
  intro H. unfold strip_answer. rewrite (split_sentence _ _ H).
  rewrite removelast_last. apply join_split. discriminate.
Qed.

Lemma answer_word_sentence (prompt object : string) :
  contains " " object = false ->
  answer_word (prompt ++ " " ++ object ++ ".") = ok object.
Proof.
  intro H. unfold answer_word.
  rewrite (split_sentence _ _ (contains_space_dot _ H)).
  rewrite (getitem_last _ EmptyString) by (now destruct (split " " prompt)).
  rewrite last_last. unfold ok. cbn [rbind].
  now rewrite drop_last_char_dot.
Qed.

Lemma content_token_second {A} (l : list A) (d : A) :
  2 <= List.length l -> getitem l 1 = ok (nth 1 l d).
Proof.
  intro H. destruct l as [|x [|y l]]; simpl in H; try lia.
  change 1%Z with (Z.of_nat 1). now rewrite getitem_nat.
Qed.

(** C9. Let the first [N] sentences of the dataset be of the form
    [prompt i ++ " " ++ object i ++ "."], the final object being one word
    whose encoding has a content token, and let [N] be even.  Then
    [change_query_box_pos] returns [N / 2] example pairs, not [N]: pair [i]
    is made of the padded encoding of the prompt of sentence [i] and of the
    padded encoding of that prompt with its digits relabelled, with the
    indices of their last tokens, and counterfactual id [i] is the content
    token of the final object of sentence [i].  The rows are padded to the
    longest of the [2 * N] prompts of all [N] sentences. *)
Theorem change_query_box_pos_halves (encode : string -> list Z)
    (pad_token_id : Z) (padding_left : bool) (data : list string) (N : nat)
    (prompt object : nat -> string) :
  Nat.even N = true ->
  N <= List.length data ->
  (forall i, i < N ->
     nth_error data i = Some (prompt i ++ " " ++ object i ++ ".")%string
     /\ contains " " (object i) = false
     /\ 2 <= List.length (encode (object i))) ->
  let relabelled i :=
    replace " 2" " 9" (replace " 1" " 4" (replace " 0" " 6" (prompt i))) in
  let width :=
    seq_len encode
      (flat_map (fun i => [prompt i; relabelled i]) (seq 0 N)) in
  let row p := pad_ids pad_token_id padding_left width (encode p) in
  let last p := (Z.of_nat (List.length (encode p)) - 1)%Z in
  exists base_ids base_pos source_ids source_pos ctf,
    change_query_box_pos encode pad_token_id padding_left data N
    = ok (base_ids, base_pos, source_ids, source_pos, ctf)
    /\ List.length base_ids = N / 2
    /\ List.length base_pos = N / 2
    /\ List.length source_ids = N / 2
    /\ List.length source_pos = N / 2
    /\ List.length ctf = N / 2
    /\ forall i, i < N / 2 ->
         nth_error base_ids i = Some (row (prompt i))
         /\ nth_error source_ids i = Some (row (relabelled i))
         /\ nth_error base_pos i = Some (last (prompt i))
         /\ nth_error source_pos i = Some (last (relabelled i))
         /\ nth_error ctf i = Some (nth 1 (encode (object i)) 0%Z).
Proof.
  intros Heven Hlen Hdata relabelled width row last.
  assert (Hstrip : forall i, i < N ->
            strip_answer (prompt i ++ " " ++ object i ++ ".") = prompt i).
  { intros i Hi. destruct (Hdata i Hi) as (_ & Hw & _).
    apply strip_answer_sentence. now apply contains_space_dot. }
  assert (Hlabel : forall i, i < N ->
            sentence_label encode (prompt i ++ " " ++ object i ++ ".")
            = ok (nth 1 (encode (object i)) 0%Z)).
  { intros i Hi. destruct (Hdata i Hi) as (_ & Hw & Henc).
    unfold sentence_label. rewrite (answer_word_sentence _ _ Hw).
    unfold ok at 1. cbn [rbind]. unfold content_token.
    now apply content_token_second. }
  assert (Hlab : forall i s, i < N -> nth_error data i = Some s ->
                   exists t, sentence_label encode s = ok t).
  { intros i s Hi Hs. destruct (Hdata i Hi) as (Hs' & _).
    assert (Es : s = (prompt i ++ " " ++ object i ++ ".")%string) by congruence.
    subst s. eexists. now apply Hlabel. }
  assert (Hprompts : flat_map prompt_pair (firstn N data)
                     = flat_map (fun i => [prompt i; relabelled i]) (seq 0 N)).
  { clear - Hlen Hdata Hstrip.
    assert (H : forall n, n <= N ->
              flat_map prompt_pair (firstn n data)
              = flat_map (fun i => [prompt i; relabelled i]) (seq 0 n)).
    { induction n as [|n IH]; intro Hn; [reflexivity|].
      destruct (Hdata n ltac:(lia)) as (Hs & _).
      rewrite (firstn_snoc data n _ Hs), seq_S, !flat_map_app, IH by lia.
      cbn [flat_map Nat.add]. unfold prompt_pair.
      rewrite (Hstrip n ltac:(lia)). reflexivity. }
    now apply H. }
  destruct (change_query_box_pos_rows encode pad_token_id padding_left data N
              Heven Hlen Hlab)
    as (ids & lti & out & b & bp & s & sp & c & _ & Hq & L1 & L2 & L3 & L4
        & L5 & Hall).
  exists b, bp, s, sp, c. split; [exact Hq|].
  repeat (split; [assumption|]).
  intros i Hi.
  assert (HiN : i < N).
  { pose proof (Nat.Div0.div_le_upper_bound N 2 N) as Hd.
    assert (N / 2 <= N) by (apply Nat.Div0.div_le_upper_bound; lia). lia. }
  destruct (Hall i Hi) as (s0 & t0 & Hs0 & Ht0 & _ & _ & _ & R1 & R2 & R3 & R4
                           & R5).
  destruct (Hdata i HiN) as (Hsi & _).
  assert (Es : s0 = (prompt i ++ " " ++ object i ++ ".")%string) by congruence.
  subst s0.
  rewrite (Hlabel i HiN) in Ht0. injection Ht0 as <-.
  rewrite (Hstrip i HiN) in R1, R2, R3, R4.
  rewrite Hprompts in R1, R2.
  repeat split; assumption.
Qed.

(** Four sentences and [N = 4]: two pairs come back, made from the first
    and the second sentence, with the tokens of [pen] and [cup] as labels. *)
Lemma change_query_box_pos_halves_witness :
  Nat.even 4 = true
  /\ 4 <= List.length Fixtures.four_sentences
  /\ (forall i, i < 4 ->
        nth_error Fixtures.four_sentences i
        = Some (nth i Fixtures.four_prompts EmptyString ++ " "
                ++ nth i Fixtures.four_objects EmptyString ++ ".")%string
        /\ contains " " (nth i Fixtures.four_objects EmptyString) = false
        /\ 2 <= List.length
                  (Fixtures.char_encode
                     (nth i Fixtures.four_objects EmptyString)))
  /\ exists base_ids base_pos source_ids source_pos ctf,
       change_query_box_pos Fixtures.char_encode 0 false
         Fixtures.four_sentences 4
       = ok (base_ids, base_pos, source_ids, source_pos, ctf)
       /\ List.length base_ids = 2
       /\ nth_error base_pos 1 = Some 56%Z
       /\ ctf = [112%Z; 99%Z].
Proof.
  assert (H1 : Nat.even 4 = true) by reflexivity.
  assert (H2 : 4 <= List.length Fixtures.four_sentences) by (simpl; lia).
  assert (H3 : forall i, i < 4 ->
            nth_error Fixtures.four_sentences i
            = Some (nth i Fixtures.four_prompts EmptyString ++ " "
                    ++ nth i Fixtures.four_objects EmptyString ++ ".")%string
            /\ contains " " (nth i Fixtures.four_objects EmptyString) = false
            /\ 2 <= List.length
                      (Fixtures.char_encode
                         (nth i Fixtures.four_objects EmptyString))).
  { intros i Hi. destruct i as [|[|[|[|i]]]]; [| | | |lia];
      (split; [reflexivity|]; split; [reflexivity|simpl; lia]). }
  repeat (split; [assumption|]).
  destruct (change_query_box_pos_halves Fixtures.char_encode 0%Z false
              Fixtures.four_sentences 4
              (fun i => nth i Fixtures.four_prompts EmptyString)
              (fun i => nth i Fixtures.four_objects EmptyString) H1 H2 H3)
    as (b & bp & s & sp & c & Hq & L1 & _ & _ & _ & L5 & Hall).
  exists b, bp, s, sp, c. split; [exact Hq|]. split; [exact L1|].
  destruct (Hall 0 ltac:(simpl; lia)) as (_ & _ & _ & _ & C0).
  destruct (Hall 1 ltac:(simpl; lia)) as (_ & _ & P1 & _ & C1).
  split; [exact P1|].
  destruct c as [|c0 [|c1 [|c2 c]]]; try discriminate L5.
  cbn in C0, C1. injection C0 as ->. injection C1 as ->. reflexivity.
Defined.

(** ** [entity_tracking_example_sampler] and the samplers built on it *)


Lemma nonzero_step {A} (k : nat) (x y : A) :
  1 <= k -> match k with O => x | S _ => y end = y.
Proof. destruct k; [lia|reflexivity]. Qed.

Section SamplerFacts.

Variable encode : string -> list Z.
Variable pad_token_id : Z.
Variable padding_left : bool.

Lemma entity_tracking_body_inv (data : list string) (architecture : string)
    (i : nat) (prompts : list string) (labels : list Z)
    (st' : list string * list Z) :
  entity_tracking_example_sampler_body encode data architecture i
    (prompts, labels) = ok st' ->
  exists sentence label tok,
    nth_error data i = Some sentence
    /\ answer_word sentence = ok label
    /\ label_token encode architecture label = ok tok
    /\ st' = (prompts ++ [strip_answer sentence], labels ++ [tok]).
Proof.
  unfold entity_tracking_example_sampler_body.
  destruct (getnat data i) as [e|sentence] eqn:Hs; [discriminate|].
  cbn [rbind]. apply getnat_inv in Hs.
  destruct (answer_word sentence) as [e|label] eqn:Ha; [discriminate|].
  cbn [rbind].
  destruct (label_token encode architecture label) as [e|tok] eqn:Ht;
    [discriminate|].
  cbn [rbind]. unfold ok. intro H. injection H as <-.
  exists sentence, label, tok. auto.
Qed.

Lemma entity_tracking_loop_inv (data : list string) (architecture : string)
    (n : nat) :
  forall prompts labels,
    for_each (entity_tracking_example_sampler_body encode data architecture)
             (seq 0 n) ([], []) = ok (prompts, labels) ->
    n <= List.length data
    /\ prompts = map strip_answer (firstn n data)
    /\ List.length labels = n
    /\ forall i, i < n ->
         exists sentence label tok,
           nth_error data i = Some sentence
           /\ answer_word sentence = ok label
           /\ label_token encode architecture label = ok tok
           /\ nth_error labels i = Some tok.
Proof.
  induction n as [|n IH]; intros prompts labels H.
  - cbn in H. unfold ok in H. injection H as <- <-.
    repeat split; try reflexivity; [simpl; lia|]. intros i Hi. lia.
  - rewrite seq_S, for_each_app in H. cbn [Nat.add] in H.
    destruct (for_each _ (seq 0 n) _) as [e|[prompts1 labels1]] eqn:H1;
      [discriminate|].
    cbn [rbind for_each] in H.
    destruct (entity_tracking_example_sampler_body encode data architecture n
                (prompts1, labels1)) as [e|st'] eqn:Hb; [discriminate|].
    cbn [rbind] in H. unfold ok in H. injection H as ->.
    destruct (IH _ _ eq_refl) as (Hn & -> & Ll & Hall).
    apply entity_tracking_body_inv in Hb
      as (sentence & label & tok & Hs & Ha & Ht & E).
    injection E as -> ->.
    assert (n < List.length data) by (apply nth_error_Some; congruence).
    split; [lia|]. split.
    { rewrite (firstn_snoc data n sentence Hs), map_app. reflexivity. }
    rewrite length_app. cbn [List.length]. split; [lia|].
    intros i Hi. destruct (Nat.eq_dec i n) as [->|Hne].
    + exists sentence, label, tok. rewrite nth_error_app2 by lia.
      rewrite Ll, Nat.sub_diag. auto.
    + destruct (Hall i ltac:(lia)) as (s0 & l0 & t0 & A1 & A2 & A3 & A4).
      exists s0, l0, t0. rewrite nth_error_app1 by lia. auto.
Qed.

(** X8. Whenever [entity_tracking_example_sampler] returns, its three results
    have one entry per requested sample: the rows are the padded encodings
    of the first [num_samples] sentences without their answers, in dataset
    order, the positions are those of their last tokens, and label [i] is
    the token the architecture selects from the encoding of the answer of
    sentence [i]. *)
Theorem entity_tracking_rows (data : list string) (num_samples : nat)
    (architecture : string) (ids : list (list Z)) (lti out : list Z) :
  entity_tracking_example_sampler encode pad_token_id padding_left data
    num_samples architecture = ok (ids, lti, out) ->
  num_samples <= List.length data
  /\ (let input_tokens :=
        tokenizer encode pad_token_id padding_left
          (map strip_answer (firstn num_samples data)) in
      ids = input_ids input_tokens /\ lti = last_token_indices input_tokens)
  /\ List.length ids = num_samples
  /\ List.length lti = num_samples
  /\ List.length out = num_samples
  /\ forall i, i < num_samples ->
       exists sentence label tok,
         nth_error data i = Some sentence
         /\ answer_word sentence = ok label
         /\ label_token encode architecture label = ok tok
         /\ nth_error out i = Some tok.
Proof.
  unfold entity_tracking_example_sampler.
  destruct (List.length data <? num_samples)%nat; [discriminate|].
  destruct (for_each _ (seq 0 num_samples) _) as [e|[prompts labels]] eqn:H;
    [discriminate|].
  cbn [rbind]. unfold ok. intro E. injection E as <- <- <-.
  apply entity_tracking_loop_inv in H as (Hn & -> & Ll & Hall).
  split; [exact Hn|]. split; [split; reflexivity|].
  unfold last_token_indices, tokenizer. cbn [input_ids attention_mask].
  rewrite !length_map, length_firstn.
  repeat split; try lia. exact Hall.
Qed.

Lemma entity_tracking_lengths (data : list string) (num_samples : nat)
    (architecture : string) (ids : list (list Z)) (lti out : list Z) :
  entity_tracking_example_sampler encode pad_token_id padding_left data
    num_samples architecture = ok (ids, lti, out) ->
  List.length ids = num_samples
  /\ List.length lti = num_samples
  /\ List.length out = num_samples.
Proof.
  unfold entity_tracking_example_sampler.
  destruct (List.length data <? num_samples)%nat; [discriminate|].
  destruct (for_each _ (seq 0 num_samples) _) as [e|[prompts labels]] eqn:H;
    [discriminate|].
  cbn [rbind]. unfold ok. intro E. injection E as <- <- <-.
  apply entity_tracking_loop_inv in H as (Hn & -> & Ll & Hall).
  unfold last_token_indices, tokenizer. cbn [input_ids attention_mask].
  rewrite !length_map, length_firstn.
  repeat split; lia.
Qed.


(** *** [box_name_alignment_example_sampler] *)

Section Groups.

Variables (ids : list (list Z)) (lti out : list Z) (n k : nat).
Hypothesis Hids : List.length ids = n.
Hypothesis Hlti : List.length lti = n.
Hypothesis Hout : List.length out = n.
Hypothesis Hk : 1 <= k.

Lemma group_of_entry (a j : nat) : j < k -> (a * k + j) / k = a.
Proof.
  intro Hj. rewrite Nat.add_comm, Nat.div_add by lia.
  rewrite Nat.div_small by exact Hj. reflexivity.
Qed.

Lemma grouped_rows_step (a j : nat) (st : grouped) :
  j < k -> a * k + j < n ->
  grouped_rows ids lti out k (a * k + j) st ->
  exists st',
    box_name_alignment_inner ids lti out (a * k) j st = ok st'
    /\ grouped_rows ids lti out k (a * k + S j) st'.
Proof.
  intros Hj Hlt Hinv.
  destruct st as [[[[[b bp] s] sp] c] iv].
  destruct Hinv as (L1 & L2 & L3 & L4 & L5 & L6 & Hall).
  destruct (nth_error_Some_lt_length ids (a * k) ltac:(lia)) as [x1 E1].
  destruct (nth_error_Some_lt_length ids (a * k + j) ltac:(lia)) as [x2 E2].
  destruct (nth_error_Some_lt_length lti (a * k) ltac:(lia)) as [x3 E3].
  destruct (nth_error_Some_lt_length lti (a * k + j) ltac:(lia)) as [x4 E4].
  destruct (nth_error_Some_lt_length out (a * k + j) ltac:(lia)) as [x5 E5].
  unfold box_name_alignment_inner.
  rewrite (getnat_ok _ _ _ E1), (getnat_ok _ _ _ E2), (getnat_ok _ _ _ E3),
    (getnat_ok _ _ _ E4), (getnat_ok _ _ _ E5).
  unfold ok. cbn [rbind]. eexists. split; [reflexivity|].
  unfold grouped_rows. rewrite !length_app. cbn [List.length].
  repeat (split; [lia|]).
  intros t Ht. destruct (Nat.eq_dec t (a * k + j)) as [->|Hne].
  - rewrite !nth_error_app2 by lia.
    rewrite L1, L2, L3, L4, L5, L6, Nat.sub_diag. cbn [nth_error].
    rewrite (group_of_entry a j Hj).
    replace (k * a) with (a * k) by lia.
    repeat split; congruence.
  - rewrite !nth_error_app1 by lia. apply Hall. lia.
Qed.

Lemma box_name_alignment_inner_loop (a : nat) (c : nat) :
  forall j st,
    j + c <= k -> a * k + j + c <= n ->
    grouped_rows ids lti out k (a * k + j) st ->
    exists st',
      for_each (box_name_alignment_inner ids lti out (a * k)) (seq j c) st
      = ok st'
      /\ grouped_rows ids lti out k (a * k + j + c) st'.
Proof.
  induction c as [|c IH]; intros j st Hj Hn Hinv.
  - exists st. split; [reflexivity|]. now rewrite Nat.add_0_r.
  - destruct (grouped_rows_step a j st ltac:(lia) ltac:(lia) Hinv)
      as (st1 & E1 & Hinv1).
    replace (a * k + S j) with (a * k + S j) in Hinv1 by lia.
    destruct (IH (S j) st1 ltac:(lia) ltac:(lia) Hinv1) as (st' & E & Hinv').
    exists st'. split.
    + cbn [seq for_each]. rewrite E1. cbn [rbind]. exact E.
    + replace (a * k + j + S c) with (a * k + S j + c) by lia. exact Hinv'.
Qed.

Lemma box_name_alignment_outer_loop (c : nat) :
  forall a st,
    a <= n / k -> n / k <= a + c ->
    grouped_rows ids lti out k (a * k) st ->
    exists st',
      for_each_break (box_name_alignment_outer ids lti out n k)
        (map (fun t => 0 + t * k) (seq a c)) st = ok st'
      /\ grouped_rows ids lti out k (k * (n / k)) st'.
Proof.
  induction c as [|c IH]; intros a st Ha Hc Hinv.
  - exists st. split; [reflexivity|].
    replace (k * (n / k)) with (a * k) by (assert (a = n / k) by lia; nia).
    exact Hinv.
  - cbn [seq map for_each_break Nat.add].
    unfold box_name_alignment_outer at 1.
    pose proof (Nat.div_mod_eq n k) as Hdm.
    pose proof (Nat.mod_upper_bound n k ltac:(lia)) as Hmod.
    destruct (Nat.ltb_spec n (a * k + k)) as [Hbreak|Hgo].
    + assert (a = n / k) by nia. subst a.
      exists st. split; [reflexivity|].
      replace (k * (n / k)) with (n / k * k) by lia. exact Hinv.
    + destruct (box_name_alignment_inner_loop a k 0 st ltac:(lia) ltac:(lia))
        as (st1 & E1 & Hinv1).
      { now rewrite Nat.add_0_r. }
      rewrite E1. cbn [rbind].
      assert (Ha' : S a <= n / k) by nia.
      destruct (IH (S a) st1 Ha' ltac:(lia)) as (st' & E & Hinv').
      { replace (S a * k) with (a * k + 0 + k) by lia. exact Hinv1. }
      exists st'. split; [exact E|exact Hinv'].
Qed.

Lemma box_name_alignment_loops_return :
  exists r,
    box_name_alignment_loops ids lti out n k = ok r
    /\ grouped_rows ids lti out k (k * (n / k)) r.
Proof.
  unfold box_name_alignment_loops.
  rewrite (nonzero_step k _ _ Hk).
  unfold py_range. rewrite Nat.sub_0_r.
  apply box_name_alignment_outer_loop.
  - lia.
  - cbn [Nat.add].
    apply Nat.Div0.div_le_mono; lia.
  - cbn. repeat split; try reflexivity; lia.
Qed.

End Groups.

(** X10. Whenever the underlying sampler returns and the group size [k] is
    at least 1, [box_name_alignment_example_sampler] returns too, and its six
    lists have [k * (num_samples / k)] entries each: the rows of a trailing
    group of fewer than [k] rows are dropped.  Entry [t] takes its base ids
    and base position from the first row of the group of [t], row
    [k * (t / k)], its source ids, source position and label from row [t],
    and its intervention id is 0. *)
Theorem box_name_alignment_groups (data : list string) (num_samples : nat)
    (architecture : string) (k : nat) (ids : list (list Z)) (lti out : list Z) :
  entity_tracking_example_sampler encode pad_token_id padding_left data
    num_samples architecture = ok (ids, lti, out) ->
  1 <= k ->
  exists r,
    box_name_alignment_example_sampler encode pad_token_id padding_left data
      num_samples architecture k = ok r
    /\ grouped_rows ids lti out k (k * (num_samples / k)) r.
Proof.
  intros Hs Hk. unfold box_name_alignment_example_sampler. rewrite Hs.
  unfold ok at 1. cbn [rbind].
  apply entity_tracking_lengths in Hs as (L1 & L2 & L3).
  now apply box_name_alignment_loops_return.
Qed.

End SamplerFacts.

Lemma entity_tracking_rows_witness :
  exists ids lti out,
    entity_tracking_example_sampler Fixtures.char_encode 0 false
      Fixtures.four_sentences 2 "LlamaForCausalLM" = ok (ids, lti, out)
    /\ List.length ids = 2
    /\ List.length out = 2
    /\ exists sentence label tok,
         nth_error Fixtures.four_sentences 1 = Some sentence
         /\ answer_word sentence = ok label
         /\ label_token Fixtures.char_encode "LlamaForCausalLM" label = ok tok
         /\ nth_error out 1 = Some tok.
Proof.
  destruct (entity_tracking_example_sampler Fixtures.char_encode 0 false
              Fixtures.four_sentences 2 "LlamaForCausalLM")
    as [e|[[ids lti] out]] eqn:E.
  - vm_compute in E. discriminate E.
  - exists ids, lti, out. split; [reflexivity|].
    destruct (entity_tracking_rows Fixtures.char_encode 0%Z false
                Fixtures.four_sentences 2 "LlamaForCausalLM" ids lti out E)
      as (_ & _ & L1 & _ & L3 & Hall).
    split; [exact L1|]. split; [exact L3|]. apply Hall. lia.
Defined.


Lemma box_name_alignment_groups_witness :
  exists ids lti out r,
    entity_tracking_example_sampler Fixtures.char_encode 0 false
      Fixtures.four_sentences 3 "LlamaForCausalLM" = ok (ids, lti, out)
    /\ 1 <= 2
    /\ box_name_alignment_example_sampler Fixtures.char_encode 0 false
         Fixtures.four_sentences 3 "LlamaForCausalLM" 2 = ok r
    /\ grouped_rows ids lti out 2 (2 * (3 / 2)) r.
Proof.
  destruct (entity_tracking_example_sampler Fixtures.char_encode 0 false
              Fixtures.four_sentences 3 "LlamaForCausalLM")
    as [e|[[ids lti] out]] eqn:E.
  - vm_compute in E. discriminate E.
  - assert (Hk : 1 <= 2) by lia.
    destruct (box_name_alignment_groups Fixtures.char_encode 0%Z false
                Fixtures.four_sentences 3 "LlamaForCausalLM" 2 ids lti out
                E Hk) as (r & Hr & Hrows).
    exists ids, lti, out, r. auto.
Defined.

(** ** [get_samples_with_correct_prediction] *)

Section CorrectPredictions.

Variable encode : string -> list Z.
Variable pad_token_id : Z.
Variable padding_left : bool.
Variable predict : string -> Z.




End CorrectPredictions.


(** ** [rotate_half] *)

Lemma firstn_length_app {A} (l1 l2 : list A) :
  firstn (List.length l1) (l1 ++ l2) = l1.
Proof. induction l1 as [|x l1 IH]; simpl; [now destruct l2|now rewrite IH]. Qed.

Lemma skipn_length_app {A} (l1 l2 : list A) :
  skipn (List.length l1) (l1 ++ l2) = l2.
Proof. induction l1 as [|x l1 IH]; simpl; [reflexivity|exact IH]. Qed.

Lemma SFopp_involutive (x : float) : SFopp (SFopp x) = x.
Proof. destruct x as [s|s| |s m e]; simpl; try reflexivity; now destruct s. Qed.

(** X12. [rotate_half] keeps the length of a vector, and on a vector of even
    length it is a quarter turn: applied twice it negates every entry, and
    applied four times it gives the vector back. *)
Theorem rotate_half_twice (x : list float) :
  List.length (rotate_half x) = List.length x
  /\ (Nat.even (List.length x) = true ->
      rotate_half (rotate_half x) = map SFopp x
      /\ rotate_half (rotate_half (rotate_half (rotate_half x))) = x).
Proof.
  assert (Hlen : forall y : list float,
            List.length (rotate_half y) = List.length y).
  { intro y. unfold rotate_half.
    rewrite length_app, length_map, length_skipn, length_firstn.
    pose proof (Nat.Div0.div_le_upper_bound (List.length y) 2 (List.length y)).
    assert (List.length y / 2 <= List.length y)
      by (apply Nat.Div0.div_le_upper_bound; lia).
    lia. }
  assert (Htwice : forall y : list float,
            Nat.even (List.length y) = true ->
            rotate_half (rotate_half y) = map SFopp y).
  { intros y Heven. apply Nat.even_spec in Heven as [h Hh].
    assert (Hhalf : List.length y / 2 = h)
      by (rewrite Hh, Nat.mul_comm; apply Nat.div_mul; lia).
    unfold rotate_half at 1. rewrite Hlen, Hhalf.
    unfold rotate_half. rewrite Hhalf.
    assert (L : List.length (map SFopp (skipn h y)) = h)
      by (rewrite length_map, length_skipn; lia).
    remember (map SFopp (skipn h y)) as A eqn:EA.
    remember (firstn h y) as B eqn:EB.
    rewrite <- L, skipn_length_app, firstn_length_app.
    subst A B. rewrite <- map_app, firstn_skipn. reflexivity. }
  split; [apply Hlen|]. intro Heven. split; [now apply Htwice|].
  rewrite (Htwice (rotate_half (rotate_half x))) by (now rewrite !Hlen).
  rewrite (Htwice x Heven), map_map.
  rewrite <- (map_id x) at 2. apply map_ext. intro a. apply SFopp_involutive.
Qed.

(** ** The samplers that draw random numbers *)

Section ReplaySamplers.

Variable encode : string -> list Z.
Variable pad_token_id : Z.
Variable padding_left : bool.





End ReplaySamplers.


(** ** The digit relabelling of [change_box_label] *)

Lemma replace_absent (old new s : string) :
  contains old s = false -> replace old new s = s.
Proof.
  unfold replace. induction s as [|c s IH]; intro H; [reflexivity|].
  cbn [contains] in H. apply orb_false_iff in H as [H1 H2].
  cbn [replace_go]. rewrite H1, IH by exact H2. reflexivity.
Qed.

(** X14. The source prompt of [change_box_label] differs from the base
    prompt only where a space is followed by 0, 1 or 2: a sentence that
    holds none of [" 0"], [" 1"], [" 2"], such as one whose boxes are named
    by letters, gets a source prompt that is its base prompt. *)
Theorem relabel_digits_without_digits (sentence : string) :
  contains " 0" (strip_answer sentence) = false ->
  contains " 1" (strip_answer sentence) = false ->
  contains " 2" (strip_answer sentence) = false ->
  relabel_digits (strip_answer sentence) = strip_answer sentence
  /\ prompt_pair sentence = [strip_answer sentence; strip_answer sentence].
Proof.
  intros H0 H1 H2.
  assert (E : relabel_digits (strip_answer sentence) = strip_answer sentence).
  { unfold relabel_digits.
    rewrite (replace_absent " 0" " 6" _ H0).
    rewrite (replace_absent " 1" " 4" _ H1).
    now rewrite (replace_absent " 2" " 9" _ H2). }
  split; [exact E|]. unfold prompt_pair. now rewrite E.
Qed.

Lemma relabel_digits_without_digits_witness :
  contains " 0" (strip_answer Fixtures.scenario_sentence) = false
  /\ contains " 1" (strip_answer Fixtures.scenario_sentence) = false
  /\ contains " 2" (strip_answer Fixtures.scenario_sentence) = false
  /\ relabel_digits (strip_answer Fixtures.scenario_sentence)
     = strip_answer Fixtures.scenario_sentence
  /\ prompt_pair Fixtures.scenario_sentence
     = [strip_answer Fixtures.scenario_sentence;
        strip_answer Fixtures.scenario_sentence].
Proof.
  assert (H0 : contains " 0" (strip_answer Fixtures.scenario_sentence) = false)
    by reflexivity.
  assert (H1 : contains " 1" (strip_answer Fixtures.scenario_sentence) = false)
    by reflexivity.
  assert (H2 : contains " 2" (strip_answer Fixtures.scenario_sentence) = false)
    by reflexivity.
  repeat (split; [assumption|]).
  exact (relabel_digits_without_digits Fixtures.scenario_sentence H0 H1 H2).
Defined.
